(** * The lint-result pipeline of golangci-lint-action (src/run.ts)

    A shallow embedding of [parseOutput], [logLintIssues],
    [annotateLintIssues], [hasFailingIssues], [printOutput], [runLint] and
    [fetchPatch], with the properties of the specification stated and settled
    against it, and further properties read off the code.

    Conventions.
    - A JavaScript string is a sequence of UTF-16 code units; the model keeps
      the code units below 256, one per [ascii].
    - A JavaScript number that the program handles (a line, a column, an exit
      code, an array length) is an integer and is modelled by [Z].
    - Effects ([core.info], [core.setFailed], the calls to the checks API and
      the subprocess) are recorded, in program order, in a list of [event]s.
    - What the host provides ([core.getInput], [github.context], the answers
      of the API, of the file system and of the subprocess) is a [Host]
      record; [JSON.parse] is a variable of the sections that use it.
    - The type annotations and casts of the source are erased when the
      program runs. [parseOutput] and [printOutput] are followed on the
      parsed value as it is. The three functions that consume the issues
      are embedded twice: on the records of the declared types
      ([logLintIssues], [annotateLintIssues], [hasFailingIssues]), and in
      module [Runtime] on any parsed value, the way [printOutput] runs
      them; on the members of the declared types the two are equal. *)

From Stdlib Require Import ZArith List String Ascii Bool Lia.
From Stdlib Require Import DecimalString.
From Stdlib Require QArith Qround.
Import ListNotations.

Set Warnings "-register-all".

Local Open Scope list_scope.
Local Open Scope string_scope.

(* ================================================================== *)
(** * JavaScript strings *)

(** The characters matched by the regular expression [\s], which are also
    the ones removed by [trimRight]: tab, line feed, vertical tab, form feed,
    carriage return, space and no-break space. *)
Definition isWhiteSpace (c : ascii) : bool :=
  let n := nat_of_ascii c in
  (((9 <=? n) && (n <=? 13)) || (n =? 32) || (n =? 160))%nat.

Definition lowerChar (c : ascii) : ascii :=
  let n := nat_of_ascii c in
  if (((65 <=? n) && (n <=? 90))
      || ((192 <=? n) && (n <=? 222) && negb (n =? 215)))%nat
  then ascii_of_nat (n + 32)
  else c.

(** [String.prototype.toLowerCase]. *)
Fixpoint toLowerCase (s : string) : string :=
  match s with
  | EmptyString => EmptyString
  | String c r => String (lowerChar c) (toLowerCase r)
  end.

(** [s.split(sep)] where every character satisfying [sep] is a separator of
    its own: [n] separators give [n + 1] pieces, some of them empty. *)
Fixpoint splitOn (sep : ascii -> bool) (s : string) : list string :=
  match s with
  | EmptyString => [EmptyString]
  | String c r =>
      if sep c then EmptyString :: splitOn sep r
      else match splitOn sep r with
           | [] => [String c EmptyString]
           | p :: ps => String c p :: ps
           end
  end.

(** [s.split(/\s/)]. *)
Definition splitWhiteSpace (s : string) : list string := splitOn isWhiteSpace s.

(** [s.split(c)] for a one-character separator. *)
Definition splitChar (c : ascii) (s : string) : list string :=
  splitOn (Ascii.eqb c) s.

(** [s.startsWith(c)] for a one-character prefix. *)
Definition startsWithChar (c : ascii) (s : string) : bool :=
  match s with
  | EmptyString => false
  | String d _ => Ascii.eqb c d
  end.

(** [s.replace(c, ``)] with a string pattern: only the first occurrence of
    the character is removed. *)
Fixpoint removeFirst (c : ascii) (s : string) : string :=
  match s with
  | EmptyString => EmptyString
  | String d r => if Ascii.eqb c d then r else String d (removeFirst c r)
  end.

(** [s.trimRight()]. *)
Fixpoint trimRight (s : string) : string :=
  match s with
  | EmptyString => EmptyString
  | String c r =>
      match trimRight r with
      | EmptyString => if isWhiteSpace c then EmptyString else String c EmptyString
      | r' => String c r'
      end
  end.

(** [parts.join(sep)]. *)
Fixpoint join (sep : string) (parts : list string) : string :=
  match parts with
  | [] => EmptyString
  | [p] => p
  | p :: ps => p ++ sep ++ join sep ps
  end.

(** The decimal rendering of an integer, as a template literal prints it. *)
Definition showNumber (z : Z) : string := NilZero.string_of_int (Z.to_int z).

(** Truthiness of a string and of a number. *)
Definition nonEmpty (s : string) : bool := negb (s =? "").
Definition nonZero (z : Z) : bool := negb (z =? 0)%Z.

(* ================================================================== *)
(** * Severity model *)

(** [enum LintSeverity { notice, warning, failure }]. *)
Inductive LintSeverity : Type := notice | warning | failure.

(** The member's number, [LintSeverity[name]]. *)
Definition ordinal (s : LintSeverity) : Z :=
  match s with notice => 0 | warning => 1 | failure => 2 end.

(** The member's name, [LintSeverityStrings]. *)
Definition severityName (s : LintSeverity) : string :=
  match s with notice => "notice" | warning => "warning" | failure => "failure" end.

Definition LintSeverity_eqb (a b : LintSeverity) : bool :=
  (ordinal a =? ordinal b)%Z.

(** The entries of the object literal [severityMap] of [parseOutput]. *)
Definition severityMap : list (string * LintSeverity) :=
  [ ("info", notice);
    ("notice", notice);
    ("minor", warning);
    ("warning", warning);
    ("error", failure);
    ("major", failure);
    ("critical", failure);
    ("blocker", failure);
    ("failure", failure) ].

(** The entry a table itself holds for a key, if it holds one. *)
Fixpoint lookup {A : Type} (key : string) (table : list (string * A)) : option A :=
  match table with
  | [] => None
  | (k, v) :: rest => if k =? key then Some v else lookup key rest
  end.

(** The names under which every object finds a member it inherits from
    [Object.prototype]. *)
Definition ObjectPrototype_names : list string :=
  ["constructor"; "__defineGetter__"; "__defineSetter__"; "hasOwnProperty";
   "__lookupGetter__"; "__lookupSetter__"; "isPrototypeOf";
   "propertyIsEnumerable"; "toString"; "valueOf"; "__proto__";
   "toLocaleString"].

Definition inherited (name : string) : bool :=
  existsb (fun n => n =? name) ObjectPrototype_names.

(* ================================================================== *)
(** * Thrown values and JavaScript values *)

(** What a [throw] carries: a string ([throw `...`]) or an error object with
    its name and message ([new Error(...)], and the [TypeError]s and
    [SyntaxError]s raised by the runtime). *)
Inductive thrown : Type :=
| ThrowString (s : string)
| ThrowError (name message : string).

Definition TypeError (message : string) : thrown := ThrowError "TypeError" message.
Definition SyntaxError (message : string) : thrown := ThrowError "SyntaxError" message.
Definition newError (message : string) : thrown := ThrowError "Error" message.

(** [`${e}`] for a thrown value. *)
Definition render (e : thrown) : string :=
  match e with
  | ThrowString s => s
  | ThrowError name message =>
      if message =? "" then name else name ++ ": " ++ message
  end.

(** The values [JSON.parse] builds; [undefined] for what a property access
    finds absent; and the members every object inherits from
    [Object.prototype], each known by its name there (functions, and under
    [__proto__] the prototype itself), which [JSON.parse] never builds. An
    object keeps its fields as a list of pairs; [JSON.parse] leaves one entry
    per key. *)
Inductive jsval : Type :=
| JUndefined
| JNull
| JBool (b : bool)
| JNum (n : Z)
| JStr (s : string)
| JArr (elems : list jsval)
| JObj (fields : list (string * jsval))
| JNative (name : string).

(** Truthiness, as [!v] and [v ? a : b] test it. *)
Definition truthy (v : jsval) : bool :=
  match v with
  | JUndefined | JNull => false
  | JBool b => b
  | JNum n => nonZero n
  | JStr s => nonEmpty s
  | JArr _ | JObj _ | JNative _ => true
  end.

(** [v === `s`]. *)
Definition isString (s : string) (v : jsval) : bool :=
  match v with
  | JStr t => t =? s
  | _ => false
  end.

(** Computations that may throw. *)
Definition result (A : Type) : Type := thrown + A.

Definition bindR {A B : Type} (m : result A) (k : A -> result B) : result B :=
  match m with
  | inl e => inl e
  | inr a => k a
  end.

Declare Scope result_scope.
Delimit Scope result_scope with result.
Notation "'let?' x ':=' m 'in' k" := (bindR m (fun x => k))
  (at level 10, x name, m at level 100, k at level 200) : result_scope.
Local Open Scope result_scope.

(** The number of parameters of an inherited function, its [length]; the
    prototype itself has none. *)
Definition nativeLength (name : string) : option Z :=
  if name =? "__proto__" then None
  else if (name =? "__defineGetter__") || (name =? "__defineSetter__")
  then Some 2%Z
  else if (name =? "toString") || (name =? "valueOf") || (name =? "toLocaleString")
  then Some 0%Z
  else Some 1%Z.

(** [v.name], for the property names the program reads ([Report], [Issues],
    [length], [Severity], [Pos], ...): none of them is inherited from a
    prototype, so the access finds an own field, the [length] of an array,
    of a string or of a function, or nothing. On [undefined] and [null] it
    throws. *)
Definition getProp (v : jsval) (name : string) : result jsval :=
  match v with
  | JUndefined =>
      inl (TypeError ("Cannot read property '" ++ name ++ "' of undefined"))
  | JNull =>
      inl (TypeError ("Cannot read property '" ++ name ++ "' of null"))
  | JObj fields =>
      inr (match lookup name fields with Some x => x | None => JUndefined end)
  | JArr elems =>
      inr (if name =? "length" then JNum (Z.of_nat (List.length elems)) else JUndefined)
  | JStr s =>
      inr (if name =? "length" then JNum (Z.of_nat (String.length s)) else JUndefined)
  | JBool _ | JNum _ => inr JUndefined
  | JNative n =>
      inr (if name =? "length"
           then match nativeLength n with Some k => JNum k | None => JUndefined end
           else JUndefined)
  end.

(** The fields of an object after [o.name = v]. *)
Fixpoint setField (name : string) (v : jsval) (fields : list (string * jsval))
  : list (string * jsval) :=
  match fields with
  | [] => [(name, v)]
  | (k, x) :: rest =>
      if k =? name then (k, v) :: rest else (k, x) :: setField name v rest
  end.

(** [o.name = v] in strict mode: an object gets or replaces the field, a
    primitive value refuses it. (An array or an inherited member would take
    the field too; the program assigns only to what passed the [Severity]
    or the [Report] test, and to the annotations it builds, which are
    objects.) *)
Definition setProp (o : jsval) (name : string) (v : jsval) : result jsval :=
  match o with
  | JObj fields => inr (JObj (setField name v fields))
  | JUndefined | JNull =>
      inl (TypeError ("Cannot set property '" ++ name ++ "' of null or undefined"))
  | _ => inl (TypeError ("Cannot create property '" ++ name ++ "'"))
  end.

(** [elems.filter(keep)] with a callback that may throw: the elements are
    visited in order and the first throw ends the visit. *)
Fixpoint filterR (keep : jsval -> result bool) (elems : list jsval)
  : result (list jsval) :=
  match elems with
  | [] => inr []
  | x :: rest =>
      let? b := keep x in
      let? kept := filterR keep rest in
      inr (if b then x :: kept else kept)
  end.

(** [elems.map(f)] with a callback that may throw. *)
Fixpoint mapR (f : jsval -> result jsval) (elems : list jsval)
  : result (list jsval) :=
  match elems with
  | [] => inr []
  | x :: rest =>
      let? y := f x in
      let? ys := mapR f rest in
      inr (y :: ys)
  end.

(** [v.filter(keep)]: only an array has the method. *)
Definition Array_filter (v : jsval) (keep : jsval -> result bool)
  : result (list jsval) :=
  match v with
  | JArr elems => filterR keep elems
  | JUndefined | JNull => inl (TypeError "Cannot read property 'filter' of null or undefined")
  | _ => inl (TypeError "lintOutput.Issues.filter is not a function")
  end.

(** [v.toLowerCase()]: only a string has the method. *)
Definition callToLowerCase (v : jsval) : result string :=
  match v with
  | JStr s => inr (toLowerCase s)
  | JUndefined | JNull =>
      inl (TypeError "Cannot read property 'toLowerCase' of null or undefined")
  | _ => inl (TypeError "issue.Severity.toLowerCase is not a function")
  end.

(** [severityMap[key]]: the property read on the object literal, which
    finds the literal's own entry, or else the member the object inherits
    under that name, or else nothing. *)
Definition readSeverityMap (key : string) : jsval :=
  match lookup key severityMap with
  | Some s => JStr (severityName s)
  | None => if inherited key then JNative key else JUndefined
  end.

(** [severityMap[key] ? severityMap[key] : `failure`]. *)
Definition aliasOrFailure (key : string) : jsval :=
  if truthy (readSeverityMap key) then readSeverityMap key else JStr "failure".

(** Severity normalization, the body of the [map] callback of [parseOutput]:
    the label is lower-cased and looked up. *)
Definition normalizeSeverity (label : string) : jsval :=
  let Severity := toLowerCase label in
  aliasOrFailure Severity.

(** The text of an inherited member: the source text the engine shows for
    a built-in function, and the tag of the prototype. *)
Definition nativeText (name : string) : string :=
  if name =? "__proto__" then "[object Object]"
  else "function " ++ (if name =? "constructor" then "Object" else name)
         ++ "() { [native code] }".

(** [`${v}`], the conversion of a value to a string: an array joins its
    elements with commas, [null] and [undefined] elements giving the empty
    string; an object is [[object Object]], unless it has a field
    [toString] of its own, which holds a value that cannot be called, and
    the conversion throws. *)
Fixpoint ToString (v : jsval) : result string :=
  match v with
  | JUndefined => inr "undefined"
  | JNull => inr "null"
  | JBool b => inr (if b then "true" else "false")
  | JNum n => inr (showNumber n)
  | JStr s => inr s
  | JArr elems =>
      (fix joined (l : list jsval) : result string :=
         match l with
         | [] => inr ""
         | x :: rest =>
             let? s := match x with
                       | JUndefined | JNull => inr ""
                       | _ => ToString x
                       end in
             match rest with
             | [] => inr s
             | _ => let? r := joined rest in inr (s ++ "," ++ r)
             end
         end) elems
  | JObj fields =>
      match lookup "toString" fields with
      | Some _ => inl (TypeError "Cannot convert object to primitive value")
      | None => inr "[object Object]"
      end
  | JNative name => inr (nativeText name)
  end.

(** [elems.join(sep)] on the elements of an array. *)
Fixpoint joinValues (sep : string) (elems : list jsval) : result string :=
  match elems with
  | [] => inr ""
  | x :: rest =>
      let? s := match x with
                | JUndefined | JNull => inr ""
                | _ => ToString x
                end in
      match rest with
      | [] => inr s
      | _ => let? r := joinValues sep rest in inr (s ++ sep ++ r)
      end
  end.

(** [v.join(sep)]: only an array has the method. *)
Definition Array_join (v : jsval) (sep : string) : result string :=
  match v with
  | JArr elems => joinValues sep elems
  | JUndefined | JNull =>
      inl (TypeError "Cannot read property 'join' of null or undefined")
  | _ => inl (TypeError "issue.Replacement.NewLines.join is not a function")
  end.

(** [v !== undefined]. *)
Definition isDefined (v : jsval) : bool :=
  match v with
  | JUndefined => false
  | _ => true
  end.

(** [v !== null]. *)
Definition isNotNull (v : jsval) : bool :=
  match v with
  | JNull => false
  | _ => true
  end.

(* ================================================================== *)
(** * Result parser *)

Section Parser.

(** [JSON.parse]: the parsed value, or the [SyntaxError] it throws. *)
Variable JSON_parse : string -> result jsval.

(** The callback given to [filter]: [issue.Severity === `ignore`]. *)
Definition keepIssue (issue : jsval) : result bool :=
  let? s := getProp issue "Severity" in
  inr (isString "ignore" s).

(** The callback given to [map]: the issue's label is lower-cased, looked
    up in [severityMap], and the result is stored in the issue. *)
Definition remapIssue (issue : jsval) : result jsval :=
  let? s := getProp issue "Severity" in
  let? Severity := callToLowerCase s in
  setProp issue "Severity" (aliasOrFailure Severity).

(** [parseOutput], lines 172 to 198. *)
Definition parseOutput (json : string) : result jsval :=
  let? lintOutput := JSON_parse json in
  let? report := getProp lintOutput "Report" in
  if negb (truthy report) then
    inl (ThrowString "golangci-lint returned invalid json")
  else
    let? issues := getProp lintOutput "Issues" in
    let? len := getProp issues "length" in
    if truthy len then
      let? kept := Array_filter issues keepIssue in
      let? mapped := mapR remapIssue kept in
      setProp lintOutput "Issues" (JArr mapped)
    else
      inr lintOutput.

End Parser.

(* ================================================================== *)
(** * Typed data: issues, annotations, execution results *)

(** [Pos] of a [LintIssue]. *)
Record Position : Type := {
  Filename : string;
  Line : Z;
  Column : Z
}.

(** [LineRange] of a [LintIssue]. *)
Record Range : Type := {
  From : Z;
  To : Z
}.

(** [Replacement] of a [LintIssue], when it is not [null]. *)
Record Suggestion : Type := {
  NeedOnlyDelete : bool;
  NewLines : list string
}.

(** [type LintIssue]. [LineRange] is optional, [Replacement] may be [null]. *)
Record LintIssue : Type := {
  Text : string;
  FromLinter : string;
  Severity : LintSeverity;
  Pos : Position;
  LineRange : option Range;
  Replacement : option Suggestion
}.

(** [type LintOutput]; the advisory [Report] is kept as parsed. *)
Record LintOutput : Type := {
  Issues : list LintIssue;
  Report : jsval
}.

(** [type GithubAnnotation]. *)
Record GithubAnnotation : Type := {
  path : string;
  start_line : Z;
  end_line : Z;
  start_column : option Z;
  end_column : option Z;
  title : string;
  message : string;
  annotation_level : LintSeverity;
  raw_details : option string
}.

(** [type ExecRes]. *)
Record ExecRes : Type := {
  stdout : string;
  stderr : string;
  code : option Z
}.

(** ** The members of the declared types

    The source casts the parsed value to [LintOutput] without a check: the
    cast is erased when the program runs and never throws. The decoder
    below is the membership test of the declared types, on parsed values:
    it accepts the values whose [Issues] are an array of [LintIssue]s. It
    is not a step of the program; the program itself is followed on
    whatever was parsed (module [Runtime]), and on the members of the
    declared types it does what the typed definitions say. *)

Definition bindO {A B : Type} (m : option A) (k : A -> option B) : option B :=
  match m with
  | Some a => k a
  | None => None
  end.

Declare Scope option_scope.
Delimit Scope option_scope with option.
Notation "'let!' x ':=' m 'in' k" := (bindO m (fun x => k))
  (at level 10, x name, m at level 100, k at level 200) : option_scope.
Local Open Scope option_scope.

Definition field (v : jsval) (name : string) : option jsval :=
  match v with
  | JObj fields =>
      Some (match lookup name fields with Some x => x | None => JUndefined end)
  | _ => None
  end.

Definition asString (v : jsval) : option string :=
  match v with JStr s => Some s | _ => None end.

Definition asNumber (v : jsval) : option Z :=
  match v with JNum n => Some n | _ => None end.

Definition asBoolean (v : jsval) : option bool :=
  match v with JBool b => Some b | _ => None end.

Definition asSeverity (v : jsval) : option LintSeverity :=
  match v with
  | JStr s =>
      if s =? "notice" then Some notice
      else if s =? "warning" then Some warning
      else if s =? "failure" then Some failure
      else None
  | _ => None
  end.

Fixpoint traverse {A B : Type} (f : A -> option B) (l : list A) : option (list B) :=
  match l with
  | [] => Some []
  | x :: rest =>
      let! y := f x in
      let! ys := traverse f rest in
      Some (y :: ys)
  end.

Definition asPosition (v : jsval) : option Position :=
  let! f := bindO (field v "Filename") asString in
  let! l := bindO (field v "Line") asNumber in
  let! c := bindO (field v "Column") asNumber in
  Some {| Filename := f; Line := l; Column := c |}.

Definition asRange (v : jsval) : option (option Range) :=
  match v with
  | JUndefined => Some None
  | _ =>
      let! f := bindO (field v "From") asNumber in
      let! t := bindO (field v "To") asNumber in
      Some (Some {| From := f; To := t |})
  end.

Definition asSuggestion (v : jsval) : option (option Suggestion) :=
  match v with
  | JNull => Some None
  | _ =>
      let! d := bindO (field v "NeedOnlyDelete") asBoolean in
      let! n := field v "NewLines" in
      match n with
      | JArr lines =>
          let! ls := traverse asString lines in
          Some (Some {| NeedOnlyDelete := d; NewLines := ls |})
      | _ => None
      end
  end.

Definition asLintIssue (v : jsval) : option LintIssue :=
  let! t := bindO (field v "Text") asString in
  let! l := bindO (field v "FromLinter") asString in
  let! s := bindO (field v "Severity") asSeverity in
  let! p := bindO (field v "Pos") asPosition in
  let! r := bindO (field v "LineRange") asRange in
  let! x := bindO (field v "Replacement") asSuggestion in
  Some {| Text := t; FromLinter := l; Severity := s; Pos := p;
          LineRange := r; Replacement := x |}.

Definition asLintIssues (v : jsval) : option (list LintIssue) :=
  match v with
  | JArr elems => traverse asLintIssue elems
  | _ => None
  end.

Definition asLintOutput (v : jsval) : option LintOutput :=
  let! issues := bindO (field v "Issues") asLintIssues in
  let! report := field v "Report" in
  Some {| Issues := issues; Report := report |}.

(** An optional property: absent, or of the given type. *)
Definition asOptional {A : Type} (f : jsval -> option A) (v : jsval)
  : option (option A) :=
  match v with
  | JUndefined => Some None
  | _ => option_map Some (f v)
  end.

Definition asGithubAnnotation (v : jsval) : option GithubAnnotation :=
  let! p := bindO (field v "path") asString in
  let! sl := bindO (field v "start_line") asNumber in
  let! el := bindO (field v "end_line") asNumber in
  let! sc := bindO (field v "start_column") (asOptional asNumber) in
  let! ec := bindO (field v "end_column") (asOptional asNumber) in
  let! t := bindO (field v "title") asString in
  let! m := bindO (field v "message") asString in
  let! l := bindO (field v "annotation_level") asSeverity in
  let! d := bindO (field v "raw_details") (asOptional asString) in
  Some {| path := p; start_line := sl; end_line := el; start_column := sc;
          end_column := ec; title := t; message := m; annotation_level := l;
          raw_details := d |}.

(* ================================================================== *)
(** * Host, events and actions *)

(** How a subprocess started by [execShellCommand] ends: the promise
    resolves with the two streams (exit code 0), or rejects with an error
    that carries the streams and the exit code. *)
Inductive ExecOutcome : Type :=
| Resolved (out err : string)
| Rejected (exc : ExecRes).

Record Host : Type := {
  (** [core.getInput(name)] *)
  getInput : string -> string;
  (** [github.context.eventName] *)
  eventName : string;
  (** [octokit.checks.get]: the title of the current check's output, or the
      rejection of the request *)
  checksGet : result string;
  (** [fs.existsSync(p) && fs.lstatSync(p).isDirectory()] *)
  isDirectory : string -> bool;
  (** [path.resolve(p)] *)
  pathResolve : string -> string;
  (** [execShellCommand(cmd, {cwd})] *)
  execShellCommand : string -> option string -> ExecOutcome;
  (** what [Date.now() - startedAt] evaluates to after the subprocess *)
  elapsed : Z
}.

(** The observable effects. A [checks.update] request carries the
    annotations built from the issues: [ChecksUpdate] when all of them are
    [GithubAnnotation]s, [ChecksUpdateLoose] with the values as they are
    when one of them is not. *)
Inductive event : Type :=
| Info (msg : string)
| SetFailed (msg : string)
| ChecksGet
| ChecksUpdate (title summary : string) (annotations : list GithubAnnotation)
| ChecksUpdateLoose (title summary : string) (annotations : list jsval)
| Exec (cmd : string) (cwd : option string).

(** An action leaves a trace of events and returns or throws. *)
Definition action (A : Type) : Type := list event * result A.

Definition ret {A : Type} (a : A) : action A := ([], inr a).

Definition throw {A : Type} (e : thrown) : action A := ([], inl e).

Definition emit (e : event) : action unit := ([e], inr tt).

Definition emits (es : list event) : action unit := (es, inr tt).

Definition lift {A : Type} (r : result A) : action A := ([], r).

Definition bind {A B : Type} (m : action A) (k : A -> action B) : action B :=
  match m with
  | (t, inl e) => (t, inl e)
  | (t, inr a) => let (t', r) := k a in ((t ++ t')%list, r)
  end.

(** [try { m } catch (e) { handler e }]. *)
Definition tryCatch {A : Type} (m : action A) (handler : thrown -> action A)
  : action A :=
  match m with
  | (t, inl e) => let (t', r) := handler e in ((t ++ t')%list, r)
  | (t, inr a) => (t, inr a)
  end.

Declare Scope action_scope.
Delimit Scope action_scope with action.
Notation "'do' x '<-' m ';' k" := (bind m (fun x => k))
  (at level 10, x name, m at level 100, k at level 200) : action_scope.
Notation "m ';;' k" := (bind m (fun _ => k))
  (at level 61, right associativity) : action_scope.
Local Open Scope action_scope.

(* ================================================================== *)
(** * Logging the issues *)

Definition newline : string := String (ascii_of_nat 10) EmptyString.

(** The line [logLintIssues] writes for one issue, a [LintIssue]. *)
Definition issueLine (issue : LintIssue) : string :=
  let severity :=
    if LintSeverity_eqb (Severity issue) failure then "error" else "warning" in
  let until :=
    match LineRange issue with
    | Some range => "-" ++ showNumber (To range)
    | None =>
        if nonZero (Column (Pos issue))
        then ":" ++ showNumber (Column (Pos issue))
        else ""
    end in
  "::" ++ severity ++ "::" ++ Filename (Pos issue) ++ ":"
       ++ showNumber (Line (Pos issue)) ++ until ++ " - " ++ Text issue
       ++ " (" ++ FromLinter issue ++ ")".

(** [logLintIssues], lines 200 to 213, on [LintIssue]s. *)
Definition logLintIssues (issues : list LintIssue) : action unit :=
  emits (map (fun issue => Info (issueLine issue)) issues).

(* ================================================================== *)
(** * Annotation publisher *)

(** [annotation.end_line = line]. *)
Definition set_end_line (annotation : GithubAnnotation) (line : Z)
  : GithubAnnotation :=
  {| path := path annotation;
     start_line := start_line annotation;
     end_line := line;
     start_column := start_column annotation;
     end_column := end_column annotation;
     title := title annotation;
     message := message annotation;
     annotation_level := annotation_level annotation;
     raw_details := raw_details annotation |}.

(** [annotation.start_column = column; annotation.end_column = column]. *)
Definition set_columns (annotation : GithubAnnotation) (column : Z)
  : GithubAnnotation :=
  {| path := path annotation;
     start_line := start_line annotation;
     end_line := end_line annotation;
     start_column := Some column;
     end_column := Some column;
     title := title annotation;
     message := message annotation;
     annotation_level := annotation_level annotation;
     raw_details := raw_details annotation |}.

(** [annotation.raw_details = details]. *)
Definition set_raw_details (annotation : GithubAnnotation) (details : string)
  : GithubAnnotation :=
  {| path := path annotation;
     start_line := start_line annotation;
     end_line := end_line annotation;
     start_column := start_column annotation;
     end_column := end_column annotation;
     title := title annotation;
     message := message annotation;
     annotation_level := annotation_level annotation;
     raw_details := Some details |}.

(** The callback of [issues.map] in [annotateLintIssues], lines 225 to 248,
    on a [LintIssue]. *)
Definition annotationOf (issue : LintIssue) : GithubAnnotation :=
  let annotation :=
    {| path := Filename (Pos issue);
       start_line := Line (Pos issue);
       end_line := Line (Pos issue);
       start_column := None;
       end_column := None;
       title := FromLinter issue;
       message := Text issue;
       annotation_level := Severity issue;
       raw_details := None |} in
  let annotation :=
    match LineRange issue with
    | Some range => set_end_line annotation (To range)
    | None =>
        if nonZero (Column (Pos issue))
        then set_columns annotation (Column (Pos issue))
        else annotation
    end in
  match Replacement issue with
  | Some replacement =>
      set_raw_details annotation
        ("```suggestion" ++ newline
           ++ join newline (NewLines replacement) ++ newline ++ "```")
  | None => annotation
  end.

Definition chunkSize : nat := 50.

(** [l.slice(from, to)] for [0 <= from <= to]. *)
Definition slice {A : Type} (from to : nat) (l : list A) : list A :=
  firstn (to - from) (skipn from l).

(** [Math.ceil(n / chunkSize)], computed on the rationals. *)
Definition chunkCount (n : nat) : nat :=
  Z.to_nat (Qround.Qceiling
              (QArith_base.Qmake (Z.of_nat n) (Pos.of_nat chunkSize))).

(** [Array.from({ length: Math.ceil(l.length / chunkSize) },
               (v, i) => l.slice(i * chunkSize, i * chunkSize + chunkSize))]. *)
Definition chunks {A : Type} (l : list A) : list (list A) :=
  map (fun i => slice (i * chunkSize) (i * chunkSize + chunkSize) l)
      (seq 0 (chunkCount (List.length l))).

(** [core.getInput(name, { required: true })]. *)
Definition getRequiredInput (h : Host) (name : string) : action string :=
  if nonEmpty (getInput h name) then ret (getInput h name)
  else throw (newError ("Input required and not supplied: " ++ name)).

(** [annotateLintIssues], lines 215 to 265. The request for the current
    check is sent first and awaited after the annotations are built; the
    update calls are sent one per chunk, in order, and not awaited. *)
Definition annotateLintIssues (h : Host) (issues : list LintIssue) : action unit :=
  do _token <- getRequiredInput h "github-token";
  emit ChecksGet;;
  let githubAnnotations := map annotationOf issues in
  do currentCheck <- lift (checksGet h);
  emits (map (fun annotations => ChecksUpdate currentCheck currentCheck annotations)
             (chunks githubAnnotations)).

(* ================================================================== *)
(** * Failure gate *)

(** [Object.values(LintSeverity)]: the numeric keys come first and give the
    names, then the names give the numbers. *)
Definition LintSeverity_values : list (string + Z) :=
  [inl "notice"; inl "warning"; inl "failure"; inr 0%Z; inr 1%Z; inr 2%Z].

(** [Object.keys(LintSeverity)]. *)
Definition LintSeverity_keys : list string :=
  ["0"; "1"; "2"; "notice"; "warning"; "failure"].

(** [values.indexOf(s)] for a string [s], counting from [i]: strict equality
    never identifies a string with a number. *)
Fixpoint indexOfFrom (i : Z) (s : string) (values : list (string + Z)) : Z :=
  match values with
  | [] => (-1)%Z
  | inl t :: rest => if t =? s then i else indexOfFrom (i + 1) s rest
  | inr _ :: rest => indexOfFrom (i + 1) s rest
  end.

Definition indexOf (s : string) (values : list (string + Z)) : Z :=
  indexOfFrom 0 s values.

Definition DefaultFailureSeverity : LintSeverity := notice.

(** The scan of [hasFailingIssues] once the threshold is known, lines 279 to
    289: the loop returns at the first issue that reaches the threshold. *)
Definition failsAt (failureSeverity : Z) (issues : list LintIssue) : bool :=
  if negb (List.length issues =? 0)%nat then
    if (failureSeverity <=? 0)%Z then true
    else existsb (fun issue => (ordinal (Severity issue) >=? failureSeverity)%Z) issues
  else false.

(** [hasFailingIssues], lines 267 to 290, on [LintIssue]s. *)
Definition hasFailingIssues (h : Host) (issues : list LintIssue) : action bool :=
  let userFailureSeverity := toLowerCase (getInput h "failure-severity") in
  let failureSeverity := indexOf userFailureSeverity LintSeverity_values in
  do failureSeverity <-
    (if (failureSeverity <? 0)%Z then
       emit (Info ("::warning::failure-severity must be one of ("
                     ++ join " | " LintSeverity_keys ++ "). " ++ String "034" ""
                     ++ userFailureSeverity ++ String "034" ""
                     ++ " not supported, using default ("
                     ++ severityName DefaultFailureSeverity ++ ")"));;
       ret (ordinal DefaultFailureSeverity)
     else ret failureSeverity);
  ret (failsAt failureSeverity issues).

(* ================================================================== *)
(** * The consumers of the issues, on whatever was parsed

    [logLintIssues], [annotateLintIssues] and [hasFailingIssues] as they
    run: their parameter is declared [LintIssue[]], but what they receive
    is the value [parseOutput] returned, unchecked. Each property is read
    when the source reads it, and a read or a call that the value does not
    support throws there. On the members of the declared types they are
    the typed definitions above (lemmas [logLintIssues_typed],
    [annotateLintIssues_typed], [hasFailingIssues_typed]). *)

Module Runtime.

(** The text the callback of [logLintIssues] builds, lines 202 to 211. *)
Definition issueLine (issue : jsval) : result string :=
  let? s := getProp issue "Severity" in
  let severity := if isString "failure" s then "error" else "warning" in
  let? range := getProp issue "LineRange" in
  let? until :=
    (if isDefined range then
       let? to := getProp range "To" in
       let? to := ToString to in
       inr ("-" ++ to)
     else
       let? pos := getProp issue "Pos" in
       let? column := getProp pos "Column" in
       if truthy column then
         let? column := ToString column in
         inr (":" ++ column)
       else inr "") in
  let? pos := getProp issue "Pos" in
  let? filename := getProp pos "Filename" in
  let? filename := ToString filename in
  let? pos := getProp issue "Pos" in
  let? line := getProp pos "Line" in
  let? line := ToString line in
  let? text := getProp issue "Text" in
  let? text := ToString text in
  let? linter := getProp issue "FromLinter" in
  let? linter := ToString linter in
  inr ("::" ++ severity ++ "::" ++ filename ++ ":" ++ line ++ until ++ " - "
            ++ text ++ " (" ++ linter ++ ")").

(** [elems.forEach(f)]. *)
Fixpoint forEach (f : jsval -> action unit) (elems : list jsval) : action unit :=
  match elems with
  | [] => ret tt
  | x :: rest => f x;; forEach f rest
  end.

(** [logLintIssues], lines 200 to 213: only an array has [forEach]. *)
Definition logLintIssues (issues : jsval) : action unit :=
  match issues with
  | JArr elems =>
      forEach (fun issue => do line <- lift (issueLine issue); emit (Info line))
              elems
  | JUndefined | JNull =>
      throw (TypeError "Cannot read property 'forEach' of null or undefined")
  | _ => throw (TypeError "issues.forEach is not a function")
  end.

(** The callback of [issues.map] in [annotateLintIssues], lines 225 to 248. *)
Definition annotationOf (issue : jsval) : result jsval :=
  let? pos := getProp issue "Pos" in
  let? filename := getProp pos "Filename" in
  let? pos := getProp issue "Pos" in
  let? line := getProp pos "Line" in
  let? pos := getProp issue "Pos" in
  let? line' := getProp pos "Line" in
  let? linter := getProp issue "FromLinter" in
  let? text := getProp issue "Text" in
  let? s := getProp issue "Severity" in
  let annotation :=
    JObj [("path", filename); ("start_line", line); ("end_line", line');
          ("title", linter); ("message", text); ("annotation_level", s)] in
  let? range := getProp issue "LineRange" in
  let? annotation :=
    (if isDefined range then
       let? to := getProp range "To" in
       setProp annotation "end_line" to
     else
       let? pos := getProp issue "Pos" in
       let? column := getProp pos "Column" in
       if truthy column then
         let? annotation := setProp annotation "start_column" column in
         setProp annotation "end_column" column
       else inr annotation) in
  let? replacement := getProp issue "Replacement" in
  if isNotNull replacement then
    let? newLines := getProp replacement "NewLines" in
    let? joined := Array_join newLines newline in
    setProp annotation "raw_details"
            (JStr ("```suggestion" ++ newline ++ joined ++ newline ++ "```"))
  else inr annotation.

(** [v.map(f)]: only an array has the method. *)
Definition Array_map (v : jsval) (f : jsval -> result jsval)
  : result (list jsval) :=
  match v with
  | JArr elems => mapR f elems
  | JUndefined | JNull =>
      inl (TypeError "Cannot read property 'map' of null or undefined")
  | _ => inl (TypeError "issues.map is not a function")
  end.

(** The [octokit.checks.update] request for one chunk. *)
Definition updateCall (title : string) (annotations : list jsval) : event :=
  match traverse asGithubAnnotation annotations with
  | Some typed => ChecksUpdate title title typed
  | None => ChecksUpdateLoose title title annotations
  end.

(** [annotateLintIssues], lines 215 to 265. *)
Definition annotateLintIssues (h : Host) (issues : jsval) : action unit :=
  do _token <- getRequiredInput h "github-token";
  emit ChecksGet;;
  do githubAnnotations <- lift (Array_map issues annotationOf);
  do currentCheck <- lift (checksGet h);
  emits (map (updateCall currentCheck) (chunks githubAnnotations)).

(** [LintSeverity[key] >= failureSeverity]: the enum object gives a number
    under the three names only; what it gives under any other key (a name
    under a numeral, an inherited member, nothing) is not a number, and the
    comparison is false. *)
Definition enumAtLeast (key : string) (failureSeverity : Z) : bool :=
  if key =? "notice" then (ordinal notice >=? failureSeverity)%Z
  else if key =? "warning" then (ordinal warning >=? failureSeverity)%Z
  else if key =? "failure" then (ordinal failure >=? failureSeverity)%Z
  else false.

(** What [for (const issue of issues)] visits: the elements of an array,
    the characters of a string; nothing else that can be parsed is
    iterable. *)
Definition iterate (issues : jsval) : result (list jsval) :=
  match issues with
  | JArr elems => inr elems
  | JStr s => inr (map (fun c => JStr (String c "")) (list_ascii_of_string s))
  | _ => inl (TypeError "issues is not iterable")
  end.

(** The loop of lines 283 to 287, which returns at the first issue that
    reaches the threshold. *)
Fixpoint scan (failureSeverity : Z) (elems : list jsval) : result bool :=
  match elems with
  | [] => inr false
  | issue :: rest =>
      let? s := getProp issue "Severity" in
      let? key := ToString s in
      if enumAtLeast key failureSeverity then inr true
      else scan failureSeverity rest
  end.

(** [hasFailingIssues], lines 267 to 290. *)
Definition hasFailingIssues (h : Host) (issues : jsval) : action bool :=
  let userFailureSeverity := toLowerCase (getInput h "failure-severity") in
  let failureSeverity := indexOf userFailureSeverity LintSeverity_values in
  do failureSeverity <-
    (if (failureSeverity <? 0)%Z then
       emit (Info ("::warning::failure-severity must be one of ("
                     ++ join " | " LintSeverity_keys ++ "). " ++ String "034" ""
                     ++ userFailureSeverity ++ String "034" ""
                     ++ " not supported, using default ("
                     ++ severityName DefaultFailureSeverity ++ ")"));;
       ret (ordinal DefaultFailureSeverity)
     else ret failureSeverity);
  do len <- lift (getProp issues "length");
  if truthy len then
    if (failureSeverity <=? 0)%Z then ret true
    else
      do elems <- lift (iterate issues);
      lift (scan failureSeverity elems)
  else ret false.

End Runtime.

(* ================================================================== *)
(** * Interpreting the result of the subprocess *)

Section Driver.

Variable JSON_parse : string -> result jsval.

(** The inner [try] block of [printOutput], lines 297 to 315: the value of
    the variable [lintOutput] after it, which stays [undefined] when there
    was nothing to parse. *)
Definition processOutput (h : Host) (res : ExecRes) : action jsval :=
  if nonEmpty (stdout res) then
    do lintOutput <- lift (parseOutput JSON_parse (stdout res));
    do issues <- lift (getProp lintOutput "Issues");
    Runtime.logLintIssues issues;;
    (if (eventName h =? "pull_request") || (eventName h =? "push")
     then
       do issues <- lift (getProp lintOutput "Issues");
       Runtime.annotateLintIssues h issues
     else ret tt);;
    ret lintOutput
  else ret JUndefined.

(** [res.code ? res.code : 0]. *)
Definition exitCode (res : ExecRes) : Z :=
  match code res with
  | Some c => if nonZero c then c else 0%Z
  | None => 0%Z
  end.

(** The outer [try] block of [printOutput], lines 295 to 334. *)
Definition interpretResult (h : Host) (res : ExecRes) : action unit :=
  let exit_code := exitCode res in
  do lintOutput <-
    tryCatch (processOutput h res)
      (fun e => throw (ThrowString
         ("there was an error processing golangci-lint output: " ++ render e)));
  (if nonEmpty (stderr res) then emit (Info (stderr res)) else ret tt);;
  if (exit_code =? 1)%Z then
    if truthy lintOutput then
      do issues <- lift (getProp lintOutput "Issues");
      do failing <- Runtime.hasFailingIssues h issues;
      if failing then throw (ThrowString "issues found") else ret tt
    else
      throw (ThrowString
        "unexpected state, golangci-lint exited with 1, but provided no lint output")
  else if (exit_code >? 1)%Z then
    throw (ThrowString ("golangci-lint exit with code " ++ showNumber exit_code))
  else ret tt.

(** [printOutput], lines 292 to 339: it never throws; the run is marked
    failed by [core.setFailed] or reported clean. *)
Definition printOutput (h : Host) (res : ExecRes) : list event :=
  match interpretResult h res with
  | (t, inl e) => (t ++ [SetFailed (render e)])%list
  | (t, inr _) => (t ++ [Info "golangci-lint found no blocking issues"])%list
  end.

(* ================================================================ *)
(** * Execution driver *)

(** The set [userArgNames] of [runLint], lines 351 to 358, kept as the list
    of the names in the order they are added. *)
Definition userArgNames (userArgs : string) : list string :=
  map (fun arg => removeFirst "-" arg)
    (filter (fun arg => startsWithChar "-" arg)
       (map (fun arg => hd "" (splitChar "=" arg))
          (splitWhiteSpace userArgs))).

(** [names.has(name)]. *)
Definition has (names : list string) (name : string) : bool :=
  existsb (fun n => n =? name) names.

(** [execShellCommand]'s promise seen by the caller's [try]. *)
Definition resultOf (o : ExecOutcome) : ExecRes :=
  match o with
  | Resolved out err => {| stdout := out; stderr := err; code := None |}
  | Rejected exc => exc
  end.

(** Lines 348 to 392 of [runLint]: the command line and the working
    directory, or the configuration error thrown before the subprocess is
    started. *)
Definition prepareCommand (h : Host) (lintPath patchPath : string)
  : result (string * option string) :=
  let userArgs := getInput h "args" in
  let names := userArgNames userArgs in
  if has names "out-format" then
    inl (newError
      "please, don't change out-format for golangci-lint: it can be broken in a future")
  else
    let addedArgs := ["--out-format=json"] in
    let? addedArgs :=
      if nonEmpty patchPath then
        if has names "new" || has names "new-from-rev" || has names "new-from-patch"
        then inl (newError
          "please, don't specify manually --new* args when requesting only new issues")
        else inr (List.app addedArgs
                    ["--new-from-patch=" ++ patchPath;
                     "--new=false"; "--new-from-rev="])
      else inr addedArgs in
    let workingDirectory := getInput h "working-directory" in
    let? prepared :=
      if nonEmpty workingDirectory then
        if nonEmpty patchPath then
          inl (newError
            "options working-directory and only-new-issues aren't compatible")
        else if negb (isDirectory h workingDirectory) then
          inl (newError
            ("working-directory (" ++ workingDirectory ++ ") was not a path"))
        else
          inr (if negb (has names "path-prefix")
               then List.app addedArgs ["--path-prefix=" ++ workingDirectory]
               else addedArgs,
               Some (pathResolve h workingDirectory))
      else inr (addedArgs, None) in
    let (addedArgs, cwd) := prepared : list string * option string in
    inr (trimRight (lintPath ++ " run " ++ join " " addedArgs ++ " " ++ userArgs),
         cwd).

(** [runLint], lines 341 to 405. With the [cache] debug flag the cache
    status is printed first; that call of [printOutput] is not awaited, and
    the model places its events at the call, which is where they happen
    whenever it does not suspend on the checks API. *)
Definition runLint (h : Host) (lintPath patchPath : string) : action unit :=
  let debug := getInput h "debug" in
  (if existsb (fun flag => flag =? "cache") (splitChar "," debug) then
     let cmd := lintPath ++ " cache status" in
     emit (Exec cmd None);;
     match execShellCommand h cmd None with
     | Resolved out err =>
         emits (printOutput h {| stdout := out; stderr := err; code := None |})
     | Rejected exc => throw (newError ("Command failed: " ++ cmd))
     end
   else ret tt);;
  do prepared <- lift (prepareCommand h lintPath patchPath);
  let (cmd, cwd) := prepared : string * option string in
  emit (Info ("Running [" ++ cmd ++ "] in ["
                ++ match cwd with Some d => d | None => "" end ++ "] ..."));;
  emit (Exec cmd cwd);;
  emits (printOutput h (resultOf (execShellCommand h cmd cwd)));;
  emit (Info ("Ran golangci-lint in " ++ showNumber (elapsed h) ++ "ms")).

End Driver.

(* ================================================================== *)
(** * Vocabulary of the statements *)

(** The parsed value carries the advisory sub-structure: it is an object
    whose [Report] field is there and passes the test of the source (it is
    not [null], [false], [0] or the empty string). *)
Definition hasReport (v : jsval) : bool :=
  match v with
  | JObj fields =>
      match lookup "Report" fields with
      | Some report => truthy report
      | None => false
      end
  | _ => false
  end.

(** A value on which a property can be read: anything but [null] and
    [undefined]. *)
Definition hasFields (v : jsval) : bool :=
  match v with
  | JUndefined | JNull => false
  | _ => true
  end.

(** The raw issue's [Severity] field is the string [ignore]. *)
Definition hasIgnoreSeverity (issue : jsval) : bool :=
  match field issue "Severity" with
  | Some (JStr s) => s =? "ignore"
  | _ => false
  end.

(** The raw issue with its [Severity] replaced by the normalization of the
    label it carried. *)
Definition normalizedIssue (issue : jsval) : jsval :=
  match issue with
  | JObj fields =>
      match lookup "Severity" fields with
      | Some (JStr label) =>
          JObj (setField "Severity" (normalizeSeverity label) fields)
      | _ => issue
      end
  | _ => issue
  end.

(** The batches of annotations sent to the checks API, in the order of the
    update calls of a trace. *)
Definition updateBatches (t : list event) : list (list GithubAnnotation) :=
  flat_map (fun e => match e with
                     | ChecksUpdate _ _ annotations => [annotations]
                     | _ => []
                     end) t.

(** The trace of an action. *)
Definition trace {A : Type} (m : action A) : list event := fst m.

(** What an action returns or throws. *)
Definition outcome {A : Type} (m : action A) : result A := snd m.

(** The severity order, [notice < warning < failure]. *)
Definition severity_le (a b : LintSeverity) : Prop := (ordinal a <= ordinal b)%Z.

(** The threshold a label resolves to: the member of the enumeration that
    the label names, whatever its case, and the default [notice] when it
    names none. *)
Definition resolvedThreshold (label : string) : LintSeverity :=
  let name := toLowerCase label in
  if name =? "notice" then notice
  else if name =? "warning" then warning
  else if name =? "failure" then failure
  else DefaultFailureSeverity.

(** The calls to the checks API among the events. *)
Definition isApiCall (e : event) : bool :=
  match e with
  | ChecksGet | ChecksUpdate _ _ _ | ChecksUpdateLoose _ _ _ => true
  | _ => false
  end.

(** The run is marked failed with a message: the last thing the trace does
    is [core.setFailed(msg)]. *)
Definition markedFailed (t : list event) (msg : string) : Prop :=
  exists before, t = (before ++ [SetFailed msg])%list.

(** ** Sample inputs *)

(** A host with the given inputs (the others are empty), event name and
    subprocess outcome. *)
Definition hostWith (inputs : list (string * string)) (event : string)
           (run : ExecOutcome) : Host :=
  {| getInput := fun name =>
       match lookup name inputs with Some v => v | None => "" end;
     eventName := event;
     checksGet := inr "golangci-lint";
     isDirectory := fun _ => true;
     pathResolve := fun p => p;
     execShellCommand := fun _ _ => run;
     elapsed := 1200 |}.

Definition issueAt (line column : Z) (range : option Range) (s : LintSeverity)
  : LintIssue :=
  {| Text := "unused variable";
     FromLinter := "deadcode";
     Severity := s;
     Pos := {| Filename := "main.go"; Line := line; Column := column |};
     LineRange := range;
     Replacement := None |}.

(** JSON text is written with single quotes and turned into the real text,
    where the quotes are double. *)
Fixpoint jsonText (s : string) : string :=
  match s with
  | EmptyString => EmptyString
  | String c r =>
      String (if Ascii.eqb c "'" then "034"%char else c) (jsonText r)
  end.

(** A [JSON.parse] that is known on one text. *)
Definition parsesTo (text : string) (v : jsval) : string -> result jsval :=
  fun s => if s =? text then inr v else inl (SyntaxError "Unexpected token").

Definition twoIssuesText : string :=
  jsonText "{'Issues':[{'Severity':'ignore','Text':'a'},{'Severity':'warning','Text':'b'}],'Report':{}}".

Definition twoIssuesValue : jsval :=
  JObj [("Issues",
         JArr [JObj [("Severity", JStr "ignore"); ("Text", JStr "a")];
               JObj [("Severity", JStr "warning"); ("Text", JStr "b")]]);
        ("Report", JObj [])].

(** A report whose [Issues] array holds a [null]. *)
Definition nullIssueText : string :=
  jsonText "{'Issues':[null],'Report':{}}".

Definition nullIssueValue : jsval :=
  JObj [("Issues", JArr [JNull]); ("Report", JObj [])].

Definition noReportText : string :=
  jsonText "{'Issues':[{'Severity':'ignore','Text':'a'}]}".

Definition noReportValue : jsval :=
  JObj [("Issues", JArr [JObj [("Severity", JStr "ignore"); ("Text", JStr "a")]])].

(** A report with one complete issue, marked [ignore], at line 3, column 7
    of [main.go]. *)
Definition oneIssueText : string :=
  jsonText "{'Issues':[{'FromLinter':'deadcode','Text':'unused variable','Severity':'ignore','Pos':{'Filename':'main.go','Line':3,'Column':7},'Replacement':null}],'Report':{}}".

Definition oneIssueValue : jsval :=
  JObj [("Issues",
         JArr [JObj [("FromLinter", JStr "deadcode");
                     ("Text", JStr "unused variable");
                     ("Severity", JStr "ignore");
                     ("Pos", JObj [("Filename", JStr "main.go");
                                   ("Line", JNum 3); ("Column", JNum 7)]);
                     ("Replacement", JNull)]]);
        ("Report", JObj [])].

(** A report with one issue that suggests deleting line 3: the tool writes
    no replacement lines for a deletion. *)
Definition deletionText : string :=
  jsonText "{'Issues':[{'FromLinter':'deadcode','Text':'unused variable','Severity':'ignore','Pos':{'Filename':'main.go','Line':3,'Column':7},'Replacement':{'NeedOnlyDelete':true,'NewLines':null}}],'Report':{}}".

Definition deletionValue : jsval :=
  JObj [("Issues",
         JArr [JObj [("FromLinter", JStr "deadcode");
                     ("Text", JStr "unused variable");
                     ("Severity", JStr "ignore");
                     ("Pos", JObj [("Filename", JStr "main.go");
                                   ("Line", JNum 3); ("Column", JNum 7)]);
                     ("Replacement",
                      JObj [("NeedOnlyDelete", JBool true);
                            ("NewLines", JNull)])]]);
        ("Report", JObj [])].



(* ================================================================== *)
(** * Fetching the patch of a pull request *)

(** What [fetchPatch] needs from its host besides the inputs and the event
    name. *)
Record ReviewHost : Type := {
  (** [github.context.payload.pull_request], by its [number], when the
      payload has one *)
  pull_request : option Z;
  (** [octokit.pulls.get] for a pull request, asked for the diff: the status
      and the data of the response, or the rejection of the request *)
  pullsGet : Z -> result (Z * string);
  (** [createTempDir()]: the directory, or the error *)
  createTempDir : result string;
  (** [writeFile(path, data)] *)
  writeFile : string -> string -> result unit;
  (** [path.join(dir, name)] *)
  pathJoin : string -> string -> string
}.

(** The effects of the code around the lint pipeline: those of the pipeline
    itself, and the warnings, the request for the diff and the file
    operations of [fetchPatch]. *)
Inductive effect : Type :=
| Lint (e : event)
| Warning (msg : string)
| ConsoleWarn (msg : string) (err : thrown)
| PullsGet (pull_number : Z)
| CreateTempDir
| WriteFile (file data : string).

(** A task leaves a trace of effects and returns or throws. *)
Definition task (A : Type) : Type := list effect * result A.

Definition done {A : Type} (a : A) : task A := ([], inr a).

Definition fail {A : Type} (e : thrown) : task A := ([], inl e).

Definition perform (e : effect) : task unit := ([e], inr tt).

(** An action of the pipeline run as a task. *)
Definition ofAction {A : Type} (m : action A) : task A :=
  (map Lint (fst m), snd m).

Definition andThen {A B : Type} (m : task A) (k : A -> task B) : task B :=
  match m with
  | (t, inl e) => (t, inl e)
  | (t, inr a) => let (t', r) := k a in ((t ++ t')%list, r)
  end.

Declare Scope task_scope.
Delimit Scope task_scope with task.
Notation "'await' x '<-' m ';' k" := (andThen m (fun x => k))
  (at level 10, x name, m at level 100, k at level 200) : task_scope.
Notation "m '>>' k" := (andThen m (fun _ => k))
  (at level 61, right associativity) : task_scope.

Definition dquote : string := String "034" "".

(** [fetchPatch], lines 22 to 75. Each of the two [try] blocks turns what
    is thrown inside it into a console warning and an empty path. *)
Definition fetchPatch (h : Host) (r : ReviewHost) : task string :=
  (await onlyNewIssues <- ofAction (getRequiredInput h "only-new-issues");
   if negb (onlyNewIssues =? "false") && negb (onlyNewIssues =? "true") then
     fail (newError ("invalid value of " ++ dquote ++ "only-new-issues" ++ dquote
                       ++ ": " ++ dquote ++ onlyNewIssues ++ dquote
                       ++ ", expected " ++ dquote ++ "true" ++ dquote
                       ++ " or " ++ dquote ++ "false" ++ dquote))
   else if onlyNewIssues =? "false" then done ""
   else if negb (eventName h =? "pull_request") then
     perform (Lint (Info
       ("Not fetching patch for showing only new issues because it's not a pull request context: event name is "
          ++ eventName h))) >>
     done ""
   else
     match pull_request r with
     | None => perform (Warning "No pull request in context") >> done ""
     | Some number =>
         await _token <- ofAction (getRequiredInput h "github-token");
         perform (PullsGet number) >>
         match pullsGet r number with
         | inl err =>
             perform (ConsoleWarn "failed to fetch pull request patch:" err) >>
             done ""
         | inr (status, patch) =>
             if negb (status =? 200)%Z then
               perform (Warning
                 ("failed to fetch pull request patch: response status is "
                    ++ showNumber status)) >>
               done ""
             else
               perform CreateTempDir >>
               match createTempDir r with
               | inl err =>
                   perform (ConsoleWarn "failed to save pull request patch:" err) >>
                   done ""
               | inr tempDir =>
                   let patchPath := pathJoin r tempDir "pull.patch" in
                   perform (Lint (Info ("Writing patch to " ++ patchPath))) >>
                   perform (WriteFile patchPath patch) >>
                   match writeFile r patchPath patch with
                   | inl err =>
                       perform (ConsoleWarn "failed to save pull request patch:" err) >>
                       done ""
                   | inr _ => done patchPath
                   end
               end
         end
     end)%task.

(** The effects of a task, in order. *)
Definition effects {A : Type} (m : task A) : list effect := fst m.

(** How a task ends: what it returns or throws. *)
Definition ending {A : Type} (m : task A) : result A := snd m.

(** The effects of a task that reach outside the process: the request to
    the review API and the file operations. *)
Definition isOutsideEffect (e : effect) : bool :=
  match e with
  | PullsGet _ | CreateTempDir | WriteFile _ _ => true
  | _ => false
  end.

(** A review host for the samples: pull request 7, a diff served with the
    given status, a temporary directory and a file system that accept the
    write. *)
Definition reviewWith (status : Z) : ReviewHost :=
  {| pull_request := Some 7%Z;
     pullsGet := fun _ => inr (status, "diff --git a/main.go b/main.go");
     createTempDir := inr "/tmp/x";
     writeFile := fun _ _ => inr tt;
     pathJoin := fun dir name => dir ++ "/" ++ name |}.

(** ** Further vocabulary *)

(** The value is an array. *)
Definition isArray (v : jsval) : bool :=
  match v with
  | JArr _ => true
  | _ => false
  end.

(** The event marks the run failed. *)
Definition isSetFailed (e : event) : bool :=
  match e with
  | SetFailed _ => true
  | _ => false
  end.

(** The event starts a subprocess. *)
Definition isExec (e : event) : bool :=
  match e with
  | Exec _ _ => true
  | _ => false
  end.

(** The effect is a warning, of [core.warning] or of [console.warn]. *)
Definition isWarning (e : effect) : bool :=
  match e with
  | Warning _ | ConsoleWarn _ _ => true
  | _ => false
  end.

(** The [debug] input asks for the cache status. *)
Definition debugsCache (h : Host) : bool :=
  existsb (fun flag => flag =? "cache") (splitChar "," (getInput h "debug")).

(** The message [printOutput] reports when processing the output threw. *)
Definition processingError (e : thrown) : string :=
  "there was an error processing golangci-lint output: " ++ render e.

(** The line that reports a clean run. *)
Definition cleanLine : event := Info "golangci-lint found no blocking issues".



(* ================================================================== *)
(** * Properties of the severity model *)








(* ================================================================== *)
(** * Properties of the result parser *)

Lemma lookup_setField (name : string) (v : jsval) (fields : list (string * jsval)) :
  lookup name (setField name v fields) = Some v.
Proof.
  induction fields as [| [k x] rest IH]; simpl.
  - now rewrite String.eqb_refl.
  - destruct (String.eqb_spec k name) as [E | E]; simpl.
    + subst k. now rewrite String.eqb_refl.
    + destruct (String.eqb_spec k name); [contradiction | exact IH].
Qed.

Lemma filterR_kept (keep : jsval -> result bool) (elems kept : list jsval) :
  filterR keep elems = inr kept ->
  Forall (fun x => keep x = inr true) kept.
Proof.
  revert kept. induction elems as [| x rest IH]; simpl; intros kept H.
  - injection H as <-. constructor.
  - destruct (keep x) as [e | b] eqn:K; simpl in H; [discriminate |].
    destruct (filterR keep rest) as [e | kept'] eqn:F; simpl in H; [discriminate |].
    injection H as <-. destruct b.
    + constructor; [exact K | now apply IH].
    + now apply IH.
Qed.

Lemma mapR_each (f : jsval -> result jsval) (P : jsval -> Prop) (Q : jsval -> Prop)
      (elems mapped : list jsval) :
  (forall x y, P x -> f x = inr y -> Q y) ->
  Forall P elems ->
  mapR f elems = inr mapped ->
  Forall Q mapped.
Proof.
  intros PQ. revert mapped.
  induction elems as [| x rest IH]; simpl; intros mapped HP H.
  - injection H as <-. constructor.
  - destruct (f x) as [e | y] eqn:Fx; simpl in H; [discriminate |].
    destruct (mapR f rest) as [e | ys] eqn:M; simpl in H; [discriminate |].
    injection H as <-. inversion HP; subst.
    constructor; [now apply (PQ x) | now apply IH].
Qed.

Lemma remapIssue_failure (x y : jsval) :
  keepIssue x = inr true ->
  remapIssue x = inr y ->
  getProp y "Severity" = inr (JStr "failure").
Proof.
  unfold keepIssue, remapIssue. intros K R.
  destruct (getProp x "Severity") as [e | s]; simpl in *; [discriminate |].
  injection K as K.
  destruct s; simpl in K; try discriminate.
  apply String.eqb_eq in K. subst s. simpl in R.
  destruct x; simpl in R; try discriminate.
  injection R as <-. simpl. now rewrite lookup_setField.
Qed.

Section ParserProperties.

Variable JSON_parse : string -> result jsval.

(** C3. Whenever [parseOutput] succeeds, every issue of the report it
    returns has the severity [failure]. *)
Theorem parseOutput_issues_failure (text : string) (report : jsval)
        (issues : list jsval) :
  parseOutput JSON_parse text = inr report ->
  getProp report "Issues" = inr (JArr issues) ->
  Forall (fun issue => getProp issue "Severity" = inr (JStr "failure")) issues.
Proof.
  unfold parseOutput. intros H G.
  destruct (JSON_parse text) as [e | lintOutput]; simpl in H; [discriminate |].
  destruct (getProp lintOutput "Report") as [e | r]; simpl in H; [discriminate |].
  destruct (truthy r); simpl in H; [| discriminate].
  destruct (getProp lintOutput "Issues") as [e | raw] eqn:I; simpl in H;
    [discriminate |].
  destruct (getProp raw "length") as [e | len] eqn:L; simpl in H; [discriminate |].
  destruct (truthy len) eqn:T.
  - destruct (Array_filter raw keepIssue) as [e | kept] eqn:F; simpl in H;
      [discriminate |].
    destruct (mapR remapIssue kept) as [e | mapped] eqn:M; simpl in H;
      [discriminate |].
    destruct lintOutput; simpl in H; try discriminate.
    injection H as <-. simpl in G. rewrite lookup_setField in G.
    injection G as <-.
    destruct raw; simpl in F; try discriminate.
    apply filterR_kept in F.
    exact (mapR_each remapIssue _ _ kept mapped remapIssue_failure F M).
  - injection H as <-. rewrite I in G. injection G as ->.
    simpl in L. injection L as <-.
    destruct issues; [constructor | discriminate T].
Qed.

End ParserProperties.

Lemma filterR_filter (issues : list jsval) :
  forallb hasFields issues = true ->
  filterR keepIssue issues = inr (filter hasIgnoreSeverity issues).
Proof.
  induction issues as [| x rest IH]; simpl; intro H.
  - reflexivity.
  - apply andb_prop in H as [Hx Hrest]. rewrite (IH Hrest). clear IH Hrest.
    unfold keepIssue, hasIgnoreSeverity.
    destruct x as [| | b | n | s | elems | fields | native]; simpl in *;
      try discriminate; reflexivity.
Qed.

Lemma remapIssue_normalized (x : jsval) :
  hasIgnoreSeverity x = true ->
  remapIssue x = inr (normalizedIssue x).
Proof.
  unfold hasIgnoreSeverity, remapIssue, normalizedIssue, normalizeSeverity.
  destruct x as [| | b | n | s | elems | fields | native]; simpl; try discriminate.
  destruct (lookup "Severity" fields) as [[| | b | n | s | elems | fs | native] |];
    simpl; try discriminate.
  reflexivity.
Qed.

Lemma mapR_map (f : jsval -> result jsval) (g : jsval -> jsval) (l : list jsval) :
  Forall (fun x => f x = inr (g x)) l ->
  mapR f l = inr (map g l).
Proof.
  induction 1 as [| x rest Hx _ IH]; simpl.
  - reflexivity.
  - rewrite Hx, IH. reflexivity.
Qed.

Section ParserRefinement.

Variable JSON_parse : string -> result jsval.

(** C2, amended. On a text that parses to a value with the advisory
    sub-structure and a non-empty [Issues] array none of whose elements is
    [null] (every element has fields to read), [parseOutput] returns the
    parsed value with [Issues] replaced by exactly the raw issues whose
    [Severity] is the string [ignore], in their order, each with its
    severity replaced by its normalization; every other issue is dropped. *)
Theorem parseOutput_keeps_ignored (text : string)
        (fields : list (string * jsval)) (issues : list jsval) :
  JSON_parse text = inr (JObj fields) ->
  hasReport (JObj fields) = true ->
  lookup "Issues" fields = Some (JArr issues) ->
  issues <> [] ->
  forallb hasFields issues = true ->
  parseOutput JSON_parse text =
    inr (JObj (setField "Issues"
                 (JArr (map normalizedIssue (filter hasIgnoreSeverity issues)))
                 fields)).
Proof.
  intros P R I N F. unfold parseOutput. rewrite P. simpl.
  simpl in R. destruct (lookup "Report" fields) as [r |]; [| discriminate].
  rewrite R. simpl. rewrite I. simpl.
  assert (L : truthy (JNum (Z.of_nat (List.length issues))) = true).
  { destruct issues; [contradiction |].
    apply negb_true_iff, Z.eqb_neq. simpl List.length. lia. }
  simpl in L. rewrite L.
  rewrite (filterR_filter _ F). unfold bindR at 1.
  rewrite (mapR_map remapIssue normalizedIssue).
  - reflexivity.
  - apply Forall_forall. intros y Hy. apply filter_In in Hy as [_ Hy].
    now apply remapIssue_normalized.
Qed.

(** C5. [parseOutput] throws on every text that [JSON.parse] rejects and
    on every text whose parsed value lacks the advisory [Report]
    sub-structure, whatever else the value holds, an [Issues] field
    included; on a value that has fields at all, what it throws is the
    message [golangci-lint returned invalid json]. *)
Theorem parseOutput_rejects (text : string) :
  (exists e, JSON_parse text = inl e) \/
  (exists v, JSON_parse text = inr v /\ hasReport v = false) ->
  exists e,
    parseOutput JSON_parse text = inl e /\
    (forall v, JSON_parse text = inr v -> hasFields v = true ->
               e = ThrowString "golangci-lint returned invalid json").
Proof.
  unfold parseOutput.
  intros [[e P] | [v [P R]]]; rewrite P; simpl.
  - exists e. split; [reflexivity | discriminate].
  - destruct v as [| | b | n | s | elems | fields | native]; simpl in R |- *.
    + eexists; split; [reflexivity | intros v V]. injection V as <-.
      discriminate.
    + eexists; split; [reflexivity | intros v V]. injection V as <-.
      discriminate.
    + eexists; split; reflexivity.
    + eexists; split; reflexivity.
    + eexists; split; reflexivity.
    + eexists; split; reflexivity.
    + destruct (lookup "Report" fields) as [r |]; simpl.
      * rewrite R. simpl. eexists; split; reflexivity.
      * eexists; split; reflexivity.
    + destruct (native =? "length"); eexists; split; reflexivity.
Qed.

End ParserRefinement.

Lemma parseOutput_issues_failure_witness :
  Forall (fun issue => getProp issue "Severity" = inr (JStr "failure"))
         [JObj [("Severity", JStr "failure"); ("Text", JStr "a")]].
Proof.
  apply (parseOutput_issues_failure (parsesTo twoIssuesText twoIssuesValue)
           twoIssuesText
           (JObj [("Issues", JArr [JObj [("Severity", JStr "failure");
                                         ("Text", JStr "a")]]);
                  ("Report", JObj [])])).
  - vm_compute. reflexivity.
  - vm_compute. reflexivity.
Defined.

Lemma parseOutput_keeps_ignored_witness :
  parseOutput (parsesTo twoIssuesText twoIssuesValue) twoIssuesText =
    inr (JObj [("Issues", JArr [JObj [("Severity", JStr "failure");
                                      ("Text", JStr "a")]]);
               ("Report", JObj [])]).
Proof.
  apply (parseOutput_keeps_ignored (parsesTo twoIssuesText twoIssuesValue)
           twoIssuesText
           [("Issues",
             JArr [JObj [("Severity", JStr "ignore"); ("Text", JStr "a")];
                   JObj [("Severity", JStr "warning"); ("Text", JStr "b")]]);
            ("Report", JObj [])]
           [JObj [("Severity", JStr "ignore"); ("Text", JStr "a")];
            JObj [("Severity", JStr "warning"); ("Text", JStr "b")]]).
  - vm_compute. reflexivity.
  - reflexivity.
  - reflexivity.
  - discriminate.
  - reflexivity.
Defined.

(** C2 as stated fails on an [Issues] array with a [null] element: the text
    parses, the value has the advisory sub-structure and a non-empty
    [Issues] array, and [parseOutput] returns no report at all, because the
    filter reads [Severity] on [null] and throws a [TypeError]. *)
Lemma parseOutput_null_issue_throws :
  parsesTo nullIssueText nullIssueValue nullIssueText = inr nullIssueValue
  /\ hasReport nullIssueValue = true
  /\ getProp nullIssueValue "Issues" = inr (JArr [JNull])
  /\ (exists message,
        parseOutput (parsesTo nullIssueText nullIssueValue) nullIssueText
        = inl (TypeError message))
  /\ (forall report,
        parseOutput (parsesTo nullIssueText nullIssueValue) nullIssueText
        <> inr report).
Proof.
  repeat split; try (vm_compute; reflexivity).
  - eexists. vm_compute. reflexivity.
  - intros report H. vm_compute in H. discriminate H.
Qed.

Lemma parseOutput_rejects_witness :
  exists e,
    parseOutput (parsesTo noReportText noReportValue) noReportText = inl e /\
    (forall v, parsesTo noReportText noReportValue noReportText = inr v ->
               hasFields v = true ->
               e = ThrowString "golangci-lint returned invalid json").
Proof.
  apply (parseOutput_rejects (parsesTo noReportText noReportValue) noReportText).
  right. exists noReportValue. split; vm_compute; reflexivity.
Defined.

(* ================================================================== *)
(** * Properties of the failure gate *)

Lemma hasFailingIssues_outcome (h : Host) (issues : list LintIssue) :
  outcome (hasFailingIssues h issues) =
    inr (failsAt (ordinal (resolvedThreshold (getInput h "failure-severity")))
                 issues).
Proof.
  unfold hasFailingIssues, resolvedThreshold, outcome, indexOf.
  generalize (toLowerCase (getInput h "failure-severity")) as name. intro name.
  cbn [LintSeverity_values indexOfFrom].
  rewrite (String.eqb_sym "notice"), (String.eqb_sym "warning"),
    (String.eqb_sym "failure").
  destruct (name =? "notice"); [reflexivity |].
  destruct (name =? "warning"); [reflexivity |].
  destruct (name =? "failure"); reflexivity.
Qed.

Lemma failsAt_antitone (t1 t2 : Z) (issues : list LintIssue) :
  (t1 <= t2)%Z -> failsAt t2 issues = true -> failsAt t1 issues = true.
Proof.
  unfold failsAt. intro Le.
  destruct (negb (List.length issues =? 0)%nat); [| discriminate].
  destruct (Z.leb_spec t1 0) as [L1 | L1]; [reflexivity |].
  destruct (Z.leb_spec t2 0) as [L2 | L2]; [lia |].
  rewrite !existsb_exists. intros [issue [I G]]. exists issue. split; [exact I |].
  apply Z.geb_le in G. apply Z.geb_le. lia.
Qed.

(** C6. For a fixed list of issues, the gate is monotonic in the resolved
    threshold: when the threshold resolved from one configuration is at most
    the threshold resolved from another, under the severity order, and the
    gate fails the run at the higher one, it fails the run at the lower one
    too. Raising the threshold can turn a failing run into a passing one,
    never the reverse. *)
Theorem hasFailingIssues_monotone (h1 h2 : Host) (issues : list LintIssue) :
  severity_le (resolvedThreshold (getInput h1 "failure-severity"))
              (resolvedThreshold (getInput h2 "failure-severity")) ->
  outcome (hasFailingIssues h2 issues) = inr true ->
  outcome (hasFailingIssues h1 issues) = inr true.
Proof.
  unfold severity_le. rewrite !hasFailingIssues_outcome. intros Le H.
  injection H as H.
  now rewrite (failsAt_antitone _ _ issues Le H).
Qed.

(** The gate never fails a run without issues. *)
Lemma hasFailingIssues_empty (h : Host) :
  outcome (hasFailingIssues h []) = inr false.
Proof. rewrite hasFailingIssues_outcome. reflexivity. Qed.

(** At the threshold [notice], and so at every label that names no
    severity, the gate fails the run exactly when there is an issue. *)
Lemma hasFailingIssues_notice (h : Host) (issues : list LintIssue) :
  resolvedThreshold (getInput h "failure-severity") = notice ->
  outcome (hasFailingIssues h issues)
  = inr (negb (List.length issues =? 0)%nat).
Proof.
  intro R. rewrite hasFailingIssues_outcome, R. unfold failsAt. simpl.
  destruct (List.length issues =? 0)%nat; reflexivity.
Qed.

(* ================================================================== *)
(** * Properties of the annotation publisher *)

(** C7. The annotation of an issue ends on the issue's line when the issue
    has no line range and on the range's upper bound [To] when it has one;
    its two column fields are set, to the issue's column, exactly when the
    issue has no line range and reports a column, and are absent otherwise. *)
Theorem annotationOf_lines_columns (issue : LintIssue) :
  let annotation := annotationOf issue in
  end_line annotation =
    match LineRange issue with
    | None => Line (Pos issue)
    | Some range => To range
    end
  /\ start_column annotation =
       match LineRange issue with
       | None => if nonZero (Column (Pos issue))
                 then Some (Column (Pos issue)) else None
       | Some _ => None
       end
  /\ end_column annotation = start_column annotation.
Proof.
  unfold annotationOf.
  destruct (LineRange issue) as [range |], (Replacement issue) as [r |],
    (nonZero (Column (Pos issue))); repeat split; reflexivity.
Qed.

Lemma firstn_plus {A : Type} (n m : nat) (l : list A) :
  firstn (n + m) l = (firstn n l ++ firstn m (skipn n l))%list.
Proof.
  revert l. induction n as [| n IH]; intros l; simpl.
  - reflexivity.
  - destruct l as [| x l]; simpl.
    + now rewrite firstn_nil.
    + now rewrite IH.
Qed.

Lemma slice_chunk {A : Type} (i c : nat) (l : list A) :
  slice (i * c) (i * c + c) l = firstn c (skipn (i * c) l).
Proof. unfold slice. f_equal. lia. Qed.

Lemma concat_slices {A : Type} (c k a : nat) (l : list A) :
  List.concat (map (fun i => slice (i * c) (i * c + c) l) (seq a k))
  = firstn (k * c) (skipn (a * c) l).
Proof.
  revert a. induction k as [| k IH]; intro a; simpl.
  - reflexivity.
  - rewrite IH, slice_chunk, firstn_plus, skipn_skipn. reflexivity.
Qed.

Lemma chunkCount_bounds (n : nat) :
  n <= chunkCount n * chunkSize /\ chunkCount n * chunkSize < n + chunkSize.
Proof.
  unfold chunkCount, Qround.Qceiling, Qround.Qfloor, chunkSize. simpl Pos.of_nat.
  cbn [QArith_base.Qopp QArith_base.Qnum QArith_base.Qden].
  pose proof (Z.div_mod (- Z.of_nat n) 50 ltac:(lia)) as D.
  pose proof (Z.mod_pos_bound (- Z.of_nat n) 50 ltac:(lia)) as B.
  lia.
Qed.

Lemma concat_chunks {A : Type} (l : list A) : List.concat (chunks l) = l.
Proof.
  unfold chunks. rewrite concat_slices. simpl skipn.
  apply firstn_all2. apply chunkCount_bounds.
Qed.

Lemma chunks_bounded {A : Type} (l : list A) :
  Forall (fun batch => List.length batch <= chunkSize) (chunks l).
Proof.
  unfold chunks. apply Forall_forall. intros batch H.
  apply in_map_iff in H as [i [<- _]].
  rewrite slice_chunk, length_firstn. lia.
Qed.

Lemma updateBatches_updates (t s : string) (batches : list (list GithubAnnotation)) :
  updateBatches (map (fun annotations => ChecksUpdate t s annotations) batches)
  = batches.
Proof.
  induction batches as [| b rest IH]; simpl; [reflexivity | now rewrite IH].
Qed.

(** C8. When [n] issues are published, their annotations are sent in
    [ceil (n / 50)] update calls; no call carries more than 50 annotations,
    the sizes of the batches sum to [n], and the batches, concatenated in the
    order of the calls, are the annotations of the issues in the order of
    the issues. *)
Theorem annotateLintIssues_batches (h : Host) (issues : list LintIssue)
        (currentTitle : string) :
  nonEmpty (getInput h "github-token") = true ->
  checksGet h = inr currentTitle ->
  let batches := updateBatches (trace (annotateLintIssues h issues)) in
  let n := List.length issues in
  Z.of_nat (List.length batches)
    = Qround.Qceiling (QArith_base.Qmake (Z.of_nat n) 50)
  /\ Forall (fun batch => List.length batch <= 50) batches
  /\ list_sum (map (@List.length GithubAnnotation) batches) = n
  /\ List.concat batches = map annotationOf issues.
Proof.
  intros Token Check. unfold annotateLintIssues, getRequiredInput, trace.
  rewrite Token, Check. cbn [ret throw emit emits lift bind fst app].
  change (updateBatches (ChecksGet :: ?t)) with (updateBatches t).
  rewrite updateBatches_updates.
  repeat split.
  - unfold chunks. rewrite length_map, length_seq, length_map.
    unfold chunkCount. simpl Pos.of_nat. apply Z2Nat.id.
    pose proof (chunkCount_bounds (List.length issues)) as [_ _].
    unfold Qround.Qceiling, Qround.Qfloor.
    cbn [QArith_base.Qopp QArith_base.Qnum QArith_base.Qden].
    pose proof (Z.div_mod (- Z.of_nat (List.length issues)) 50 ltac:(lia)) as D.
    pose proof (Z.mod_pos_bound (- Z.of_nat (List.length issues)) 50 ltac:(lia)) as B.
    lia.
  - apply chunks_bounded.
  - rewrite <- length_concat, concat_chunks. apply length_map.
  - apply concat_chunks.
Qed.

(* ================================================================== *)
(** * The typed definitions are the program on the declared types *)

Lemma asString_Some (v : jsval) (s : string) :
  asString v = Some s -> v = JStr s.
Proof. destruct v; simpl; intro H; try discriminate. now injection H as ->. Qed.

Lemma asNumber_Some (v : jsval) (n : Z) :
  asNumber v = Some n -> v = JNum n.
Proof. destruct v; simpl; intro H; try discriminate. now injection H as ->. Qed.

Lemma asSeverity_Some (v : jsval) (s : LintSeverity) :
  asSeverity v = Some s -> v = JStr (severityName s).
Proof.
  destruct v as [| | b | n | t | elems | fields | native]; simpl; intro H;
    try discriminate.
  destruct (String.eqb_spec t "notice") as [-> |];
    [injection H as <-; reflexivity |].
  destruct (String.eqb_spec t "warning") as [-> |];
    [injection H as <-; reflexivity |].
  destruct (String.eqb_spec t "failure") as [-> |];
    [injection H as <-; reflexivity | discriminate].
Qed.

Lemma field_Some (v x : jsval) (name : string) :
  field v name = Some x -> getProp v name = inr x /\ exists fields, v = JObj fields.
Proof.
  destruct v; simpl; intro H; try discriminate.
  injection H as <-. split; [reflexivity | eexists; reflexivity].
Qed.

Lemma bindO_Some {A B : Type} (m : option A) (k : A -> option B) (b : B) :
  bindO m k = Some b -> exists a, m = Some a /\ k a = Some b.
Proof. destruct m as [a |]; simpl; [eauto | discriminate]. Qed.

Tactic Notation "unbind" hyp(H) "as" ident(a) ident(E) :=
  apply bindO_Some in H; destruct H as [a [E H]].

(** What the properties of a [LintIssue] are, read the way the program
    reads them. *)
Lemma asLintIssue_Some (v : jsval) (issue : LintIssue) :
  asLintIssue v = Some issue ->
  exists pos,
    getProp v "Text" = inr (JStr (Text issue)) /\
    getProp v "FromLinter" = inr (JStr (FromLinter issue)) /\
    getProp v "Severity" = inr (JStr (severityName (Severity issue))) /\
    getProp v "Pos" = inr pos /\
    getProp pos "Filename" = inr (JStr (Filename (Pos issue))) /\
    getProp pos "Line" = inr (JNum (Line (Pos issue))) /\
    getProp pos "Column" = inr (JNum (Column (Pos issue))) /\
    match LineRange issue with
    | None => getProp v "LineRange" = inr JUndefined
    | Some r =>
        exists range,
          getProp v "LineRange" = inr range /\ isDefined range = true /\
          getProp range "To" = inr (JNum (To r))
    end /\
    match Replacement issue with
    | None => getProp v "Replacement" = inr JNull
    | Some x =>
        exists replacement lines,
          getProp v "Replacement" = inr replacement /\
          isNotNull replacement = true /\
          getProp replacement "NewLines" = inr (JArr lines) /\
          traverse asString lines = Some (NewLines x)
    end.
Proof.
  unfold asLintIssue. intro H.
  unbind H as t Et. unbind Et as vt Ft. apply field_Some in Ft as [Gt _].
  apply asString_Some in Et. subst vt.
  unbind H as l El. unbind El as vl Fl. apply field_Some in Fl as [Gl _].
  apply asString_Some in El. subst vl.
  unbind H as s Es. unbind Es as vs Fs. apply field_Some in Fs as [Gs _].
  apply asSeverity_Some in Es. subst vs.
  unbind H as p Ep. unbind Ep as pos Fp. apply field_Some in Fp as [Gp _].
  unfold asPosition in Ep.
  unbind Ep as f Ef. unbind Ef as vf Ff. apply field_Some in Ff as [Gf _].
  apply asString_Some in Ef. subst vf.
  unbind Ep as n En. unbind En as vn Fn. apply field_Some in Fn as [Gn _].
  apply asNumber_Some in En. subst vn.
  unbind Ep as c Ec. unbind Ec as vc Fc. apply field_Some in Fc as [Gc _].
  apply asNumber_Some in Ec. subst vc.
  injection Ep as <-.
  unbind H as r Er. unbind Er as range Fr. apply field_Some in Fr as [Gr _].
  unbind H as x Ex. unbind Ex as replacement Fx.
  apply field_Some in Fx as [Gx _].
  injection H as <-. cbn [Text FromLinter Severity Pos LineRange Replacement
                           Filename Line Column].
  exists pos. repeat (split; [assumption |]). split.
  - unfold asRange in Er.
    destruct range as [| | b | z | str | elems | fields | native];
      try discriminate Er.
    + injection Er as <-. exact Gr.
    + unbind Er as from Efrom. unbind Efrom as vfrom Ffrom.
      unbind Er as to Eto. unbind Eto as vto Fto.
      apply field_Some in Fto as [Gto _].
      apply asNumber_Some in Eto. subst vto.
      injection Er as <-. eexists. split; [exact Gr | split; [reflexivity | exact Gto]].
  - unfold asSuggestion in Ex.
    destruct replacement as [| | b | z | str | elems | fields | native];
      try discriminate Ex.
    + injection Ex as <-. exact Gx.
    + unbind Ex as d Ed. unbind Ex as newLines Fnl.
      apply field_Some in Fnl as [Gnl _].
      destruct newLines as [| | b | z | str | lines | fs | native];
        try discriminate Ex.
      unbind Ex as ls Els. injection Ex as <-.
      eexists. eexists. split; [exact Gx |]. split; [reflexivity |]. split; [exact Gnl | exact Els].
Qed.

(** On a [LintIssue], the line the program builds is [issueLine]. *)
Lemma issueLine_typed (v : jsval) (issue : LintIssue) :
  asLintIssue v = Some issue ->
  Runtime.issueLine v = inr (issueLine issue).
Proof.
  intro H.
  destruct (asLintIssue_Some v issue H)
    as [pos [Gt [Gl [Gs [Gp [Gf [Gn [Gc [R _]]]]]]]]].
  unfold Runtime.issueLine, issueLine.
  rewrite Gs. cbn [bindR].
  destruct (LineRange issue) as [r |].
  - destruct R as [range [Gr [D Gto]]].
    rewrite Gr. cbn [bindR]. rewrite D, Gto. cbn [bindR ToString].
    rewrite Gp. cbn [bindR]. rewrite Gf, Gn. cbn [bindR ToString].
    rewrite Gt, Gl. cbn [bindR ToString].
    destruct (Severity issue); reflexivity.
  - rewrite R. cbn [bindR isDefined].
    rewrite Gp. cbn [bindR]. rewrite Gc, Gf, Gn. cbn [bindR ToString truthy].
    rewrite Gt, Gl.
    destruct (Severity issue), (nonZero (Column (Pos issue))); reflexivity.
Qed.

Lemma forEach_typed (elems : list jsval) (issues : list LintIssue) :
  traverse asLintIssue elems = Some issues ->
  Runtime.forEach
    (fun issue => do line <- lift (Runtime.issueLine issue); emit (Info line))
    elems
  = (map (fun issue => Info (issueLine issue)) issues, inr tt).
Proof.
  revert issues. induction elems as [| x rest IH]; intros issues H.
  - injection H as <-. reflexivity.
  - cbn [traverse] in H.
    unbind H as issue E. unbind H as others T. injection H as <-.
    cbn [Runtime.forEach].
    rewrite (issueLine_typed x issue E), (IH others T). reflexivity.
Qed.

(** On an array of [LintIssue]s, the program's [logLintIssues] is the
    typed one. *)
Lemma logLintIssues_typed (v : jsval) (issues : list LintIssue) :
  asLintIssues v = Some issues ->
  Runtime.logLintIssues v = logLintIssues issues.
Proof.
  destruct v as [| | b | n | s | elems | fields | native]; simpl;
    try discriminate.
  apply forEach_typed.
Qed.

Lemma joinValues_strings (sep : string) (lines : list jsval) (ls : list string) :
  traverse asString lines = Some ls ->
  joinValues sep lines = inr (join sep ls).
Proof.
  revert ls. induction lines as [| x rest IH]; simpl; intros ls H.
  - injection H as <-. reflexivity.
  - unbind H as s E. unbind H as others T. injection H as <-.
    apply asString_Some in E. subst x. cbn [bindR ToString].
    rewrite (IH others T).
    destruct rest as [| y rest'].
    + simpl in T. injection T as <-. reflexivity.
    + simpl in T. unbind T as t Et. unbind T as more Tm. injection T as <-.
      reflexivity.
Qed.

Lemma asSeverity_severityName (s : LintSeverity) :
  asSeverity (JStr (severityName s)) = Some s.
Proof. destruct s; reflexivity. Qed.

(** On a [LintIssue], the annotation the program builds is a
    [GithubAnnotation], the one [annotationOf] gives. *)
Lemma annotationOf_typed (v : jsval) (issue : LintIssue) :
  asLintIssue v = Some issue ->
  exists a,
    Runtime.annotationOf v = inr a /\
    asGithubAnnotation a = Some (annotationOf issue).
Proof.
  intro H.
  destruct (asLintIssue_Some v issue H)
    as [pos [Gt [Gl [Gs [Gp [Gf [Gn [Gc [R X]]]]]]]]].
  unfold Runtime.annotationOf, annotationOf.
  rewrite Gp. cbn [bindR]. rewrite Gf, Gn. cbn [bindR].
  rewrite Gl, Gt, Gs. cbn [bindR].
  destruct (LineRange issue) as [r |].
  - destruct R as [range [Gr [D Gto]]]. rewrite Gr. cbn [bindR].
    rewrite D, Gto. cbn [bindR setProp].
    destruct (Replacement issue) as [x |].
    + destruct X as [replacement [lines [Gx [N [Gnl T]]]]].
      rewrite Gx. cbn [bindR]. rewrite N, Gnl. cbn [bindR Array_join].
      rewrite (joinValues_strings newline lines _ T). cbn [bindR setProp].
      eexists. split; [reflexivity |].
      unfold asGithubAnnotation. cbn -[asSeverity severityName].
      now rewrite asSeverity_severityName.
    + rewrite X. cbn [bindR isNotNull].
      eexists. split; [reflexivity |].
      unfold asGithubAnnotation. cbn -[asSeverity severityName].
      now rewrite asSeverity_severityName.
  - rewrite R. cbn [bindR isDefined]. rewrite Gc. cbn [bindR truthy].
    destruct (nonZero (Column (Pos issue))); cbn [bindR setProp];
      destruct (Replacement issue) as [x |].
    + destruct X as [replacement [lines [Gx [N [Gnl T]]]]].
      rewrite Gx. cbn [bindR]. rewrite N, Gnl. cbn [bindR Array_join].
      rewrite (joinValues_strings newline lines _ T). cbn [bindR setProp].
      eexists. split; [reflexivity |].
      unfold asGithubAnnotation. cbn -[asSeverity severityName].
      now rewrite asSeverity_severityName.
    + rewrite X. cbn [bindR isNotNull].
      eexists. split; [reflexivity |].
      unfold asGithubAnnotation. cbn -[asSeverity severityName].
      now rewrite asSeverity_severityName.
    + destruct X as [replacement [lines [Gx [N [Gnl T]]]]].
      rewrite Gx. cbn [bindR]. rewrite N, Gnl. cbn [bindR Array_join].
      rewrite (joinValues_strings newline lines _ T). cbn [bindR setProp].
      eexists. split; [reflexivity |].
      unfold asGithubAnnotation. cbn -[asSeverity severityName].
      now rewrite asSeverity_severityName.
    + rewrite X. cbn [bindR isNotNull].
      eexists. split; [reflexivity |].
      unfold asGithubAnnotation. cbn -[asSeverity severityName].
      now rewrite asSeverity_severityName.
Qed.

Lemma traverse_length {A B : Type} (f : A -> option B) (l : list A) (r : list B) :
  traverse f l = Some r -> List.length l = List.length r.
Proof.
  revert r. induction l as [| x rest IH]; simpl; intros r H.
  - injection H as <-. reflexivity.
  - unbind H as y E. unbind H as ys T. injection H as <-.
    simpl. f_equal. now apply IH.
Qed.

Lemma traverse_firstn {A B : Type} (f : A -> option B) (n : nat)
      (l : list A) (r : list B) :
  traverse f l = Some r -> traverse f (firstn n l) = Some (firstn n r).
Proof.
  revert l r. induction n as [| n IH]; intros l r H; [reflexivity |].
  destruct l as [| x rest]; simpl in H.
  - injection H as <-. reflexivity.
  - unbind H as y E. unbind H as ys T. injection H as <-.
    simpl. rewrite E, (IH rest ys T). reflexivity.
Qed.

Lemma traverse_skipn {A B : Type} (f : A -> option B) (n : nat)
      (l : list A) (r : list B) :
  traverse f l = Some r -> traverse f (skipn n l) = Some (skipn n r).
Proof.
  revert l r. induction n as [| n IH]; intros l r H; [exact H |].
  destruct l as [| x rest]; simpl in H.
  - injection H as <-. reflexivity.
  - unbind H as y E. unbind H as ys T. injection H as <-.
    simpl. now apply IH.
Qed.

Lemma mapR_annotationOf_typed (elems : list jsval) (issues : list LintIssue) :
  traverse asLintIssue elems = Some issues ->
  exists annotations,
    mapR Runtime.annotationOf elems = inr annotations /\
    traverse asGithubAnnotation annotations = Some (map annotationOf issues).
Proof.
  revert issues. induction elems as [| x rest IH]; intros issues H.
  - injection H as <-. exists []. split; reflexivity.
  - cbn [traverse] in H.
    unbind H as issue E. unbind H as others T. injection H as <-.
    destruct (annotationOf_typed x issue E) as [a [Ra Ta]].
    destruct (IH others T) as [annotations [Rs Ts]].
    exists (a :: annotations). cbn [mapR traverse map].
    rewrite Ra, Rs, Ta, Ts. split; reflexivity.
Qed.

Lemma updateCalls_typed (title : string) (annotations : list jsval)
      (typed : list GithubAnnotation) :
  traverse asGithubAnnotation annotations = Some typed ->
  map (Runtime.updateCall title) (chunks annotations)
  = map (fun chunk => ChecksUpdate title title chunk) (chunks typed).
Proof.
  intro T. unfold chunks.
  rewrite (traverse_length _ _ _ T), !map_map.
  apply map_ext. intro i. unfold Runtime.updateCall, slice.
  now rewrite (traverse_firstn _ _ _ _ (traverse_skipn _ _ _ _ T)).
Qed.

(** On an array of [LintIssue]s, the program's [annotateLintIssues] is the
    typed one. *)
Lemma annotateLintIssues_typed (h : Host) (v : jsval) (issues : list LintIssue) :
  asLintIssues v = Some issues ->
  Runtime.annotateLintIssues h v = annotateLintIssues h issues.
Proof.
  destruct v as [| | b | n | s | elems | fields | native]; simpl;
    try discriminate.
  intro T. destruct (mapR_annotationOf_typed elems issues T) as [a [M Ta]].
  unfold Runtime.annotateLintIssues, annotateLintIssues, Runtime.Array_map.
  rewrite M. cbn [lift].
  destruct (getRequiredInput h "github-token") as [t [e | token]];
    [reflexivity |].
  destruct (checksGet h) as [e | currentCheck]; [reflexivity |].
  pose proof (updateCalls_typed currentCheck a _ Ta) as U.
  cbn [bind emit emits lift app]. now rewrite U.
Qed.

Lemma enumAtLeast_severityName (s : LintSeverity) (t : Z) :
  Runtime.enumAtLeast (severityName s) t = (ordinal s >=? t)%Z.
Proof. destruct s; reflexivity. Qed.

Lemma scan_typed (t : Z) (elems : list jsval) (issues : list LintIssue) :
  traverse asLintIssue elems = Some issues ->
  Runtime.scan t elems
  = inr (existsb (fun issue => (ordinal (Severity issue) >=? t)%Z) issues).
Proof.
  revert issues. induction elems as [| x rest IH]; intros issues H.
  - injection H as <-. reflexivity.
  - cbn [traverse] in H.
    unbind H as issue E. unbind H as others T. injection H as <-.
    destruct (asLintIssue_Some x issue E) as [pos [_ [_ [Gs _]]]].
    cbn [Runtime.scan existsb]. rewrite Gs. cbn [bindR ToString].
    rewrite enumAtLeast_severityName, (IH others T).
    now destruct (ordinal (Severity issue) >=? t)%Z.
Qed.

(** On an array of [LintIssue]s, the program's [hasFailingIssues] is the
    typed one. *)
Lemma hasFailingIssues_typed (h : Host) (v : jsval) (issues : list LintIssue) :
  asLintIssues v = Some issues ->
  Runtime.hasFailingIssues h v = hasFailingIssues h issues.
Proof.
  destruct v as [| | b | n | s | elems | fields | native]; simpl;
    try discriminate.
  intro T. unfold Runtime.hasFailingIssues, hasFailingIssues, failsAt.
  rewrite <- (traverse_length _ _ _ T).
  assert (L : truthy (JNum (Z.of_nat (List.length elems)))
              = negb (List.length elems =? 0)%nat)
    by (destruct elems; reflexivity).
  match goal with
  | |- bind ?m ?k1 = bind ?m ?k2 =>
      destruct m as [tr [e | failureSeverity]]; [reflexivity |]
  end.
  cbn [bind lift getProp String.eqb Ascii.eqb Bool.eqb app].
  rewrite L. destruct (negb (List.length elems =? 0)%nat); [| reflexivity].
  destruct (failureSeverity <=? 0)%Z; [reflexivity |].
  cbn [bind lift ret Runtime.iterate app].
  now rewrite (scan_typed failureSeverity elems issues T).
Qed.

Lemma asLintOutput_Some (parsed : jsval) (output : LintOutput) :
  asLintOutput parsed = Some output ->
  exists issues,
    getProp parsed "Issues" = inr issues /\
    asLintIssues issues = Some (Issues output).
Proof.
  unfold asLintOutput. intro H.
  unbind H as typed E. unbind E as issues F. apply field_Some in F as [G _].
  unbind H as report R. injection H as <-.
  exists issues. split; assumption.
Qed.


(** X25. On an array of [LintIssue]s the three consumers of the issues,
    as the program runs them on the parsed value, do what the typed
    definitions say: they log the same lines, send the same requests with
    the same annotations, and give the same verdict, with the same
    trace. *)
Theorem consumers_on_declared_types (h : Host) (v : jsval)
        (issues : list LintIssue) :
  asLintIssues v = Some issues ->
  Runtime.logLintIssues v = logLintIssues issues
  /\ Runtime.annotateLintIssues h v = annotateLintIssues h issues
  /\ Runtime.hasFailingIssues h v = hasFailingIssues h issues.
Proof.
  intro T. split; [| split].
  - now apply logLintIssues_typed.
  - now apply annotateLintIssues_typed.
  - now apply hasFailingIssues_typed.
Qed.

Lemma consumers_on_declared_types_witness :
  let h := hostWith [("github-token", "secret"); ("failure-severity", "warning")]
                    "push" (Resolved "" "") in
  let v := JArr [JObj [("FromLinter", JStr "deadcode");
                       ("Text", JStr "unused variable");
                       ("Severity", JStr "failure");
                       ("Pos", JObj [("Filename", JStr "main.go");
                                     ("Line", JNum 3); ("Column", JNum 7)]);
                       ("Replacement", JNull)]] in
  Runtime.logLintIssues v = logLintIssues [issueAt 3 7 None failure]
  /\ Runtime.annotateLintIssues h v
     = annotateLintIssues h [issueAt 3 7 None failure]
  /\ Runtime.hasFailingIssues h v
     = hasFailingIssues h [issueAt 3 7 None failure].
Proof.
  exact (consumers_on_declared_types
           (hostWith [("github-token", "secret");
                      ("failure-severity", "warning")]
                     "push" (Resolved "" ""))
           (JArr [JObj [("FromLinter", JStr "deadcode");
                        ("Text", JStr "unused variable");
                        ("Severity", JStr "failure");
                        ("Pos", JObj [("Filename", JStr "main.go");
                                      ("Line", JNum 3); ("Column", JNum 7)]);
                        ("Replacement", JNull)]])
           [issueAt 3 7 None failure] eq_refl).
Defined.

(* ================================================================== *)
(** * Properties of the interpretation of the result *)

Lemma exitCode_Some (res : ExecRes) (c : Z) :
  code res = Some c -> exitCode res = c.
Proof.
  unfold exitCode, nonZero. intros ->.
  destruct (Z.eqb_spec c 0); simpl; congruence.
Qed.

Lemma filter_bind {A B : Type} (p : event -> bool) (m : action A)
      (k : A -> action B) :
  filter p (fst m) = [] ->
  (forall a, filter p (fst (k a)) = []) ->
  filter p (fst (bind m k)) = [].
Proof.
  intros M K. destruct m as [t [e | a]]; simpl in *; [exact M |].
  specialize (K a). destruct (k a) as [t' r]. simpl in *.
  now rewrite filter_app, M, K.
Qed.

Lemma filter_tryCatch {A : Type} (p : event -> bool) (m : action A)
      (handler : thrown -> action A) :
  filter p (fst m) = [] ->
  (forall e, filter p (fst (handler e)) = []) ->
  filter p (fst (tryCatch m handler)) = [].
Proof.
  intros M K. destruct m as [t [e | a]]; simpl in *; [| exact M].
  specialize (K e). destruct (handler e) as [t' r]. simpl in *.
  now rewrite filter_app, M, K.
Qed.

(** Whatever it is given, [logLintIssues] does nothing but log. *)
Lemma logLintIssues_only_logs (p : event -> bool) (issues : jsval) :
  (forall msg, p (Info msg) = false) ->
  filter p (fst (Runtime.logLintIssues issues)) = [].
Proof.
  intro I.
  destruct issues as [| | b | n | s | elems | fields | native];
    try reflexivity.
  simpl. induction elems as [| x rest IH]; [reflexivity |].
  cbn [Runtime.forEach]. apply filter_bind; [| intros _; exact IH].
  destruct (Runtime.issueLine x) as [e | line]; simpl; [reflexivity |].
  now rewrite I.
Qed.

(** Whatever it is given, [hasFailingIssues] does nothing but log. *)
Lemma hasFailingIssues_only_logs (p : event -> bool) (h : Host) (issues : jsval) :
  (forall msg, p (Info msg) = false) ->
  filter p (fst (Runtime.hasFailingIssues h issues)) = [].
Proof.
  intro I. unfold Runtime.hasFailingIssues. apply filter_bind.
  - destruct (indexOf (toLowerCase (getInput h "failure-severity"))
                      LintSeverity_values <? 0)%Z; simpl;
      [now rewrite I | reflexivity].
  - intro t. apply filter_bind; [reflexivity |]. intro len.
    destruct (truthy len); [| reflexivity].
    destruct (t <=? 0)%Z; [reflexivity |].
    apply filter_bind; [reflexivity |]. intros elems. reflexivity.
Qed.

(** Whatever it is given, [annotateLintIssues] neither marks the run failed
    nor starts a subprocess. *)
Lemma annotateLintIssues_only_calls (h : Host) (issues : jsval) :
  filter (fun e => isSetFailed e || isExec e)
         (fst (Runtime.annotateLintIssues h issues)) = [].
Proof.
  unfold Runtime.annotateLintIssues. apply filter_bind.
  - unfold getRequiredInput.
    destruct (nonEmpty (getInput h "github-token")); reflexivity.
  - intros _. apply filter_bind; [reflexivity |]. intros _.
    apply filter_bind; [reflexivity |]. intro annotations.
    apply filter_bind; [reflexivity |]. intro currentCheck.
    simpl. induction (chunks annotations) as [| chunk rest IH];
      [reflexivity |].
    cbn [map filter].
    assert (K : isSetFailed (Runtime.updateCall currentCheck chunk)
                || isExec (Runtime.updateCall currentCheck chunk) = false)
      by (unfold Runtime.updateCall;
          destruct (traverse asGithubAnnotation chunk); reflexivity).
    rewrite K. exact IH.
Qed.


Section DriverProperties.

Variable JSON_parse : string -> result jsval.

(** C9. When the subprocess exits with a code above 1, the run is marked
    failed whatever is on its standard output: with the message that
    names the exit code, or, when processing the output threw, with the
    message of that error. When it exits with 1 and left its standard
    output empty, the run is marked failed with the unexpected-state
    message, after the standard error, if any, is logged. *)
Theorem printOutput_fatal_exit (h : Host) (res : ExecRes) (c : Z) :
  code res = Some c ->
  ((1 < c)%Z ->
   exists msg,
     markedFailed (printOutput JSON_parse h res) msg /\
     (msg = "golangci-lint exit with code " ++ showNumber c \/
      exists e, msg = "there was an error processing golangci-lint output: "
                        ++ render e)) /\
  (c = 1%Z -> stdout res = "" ->
   printOutput JSON_parse h res =
     ((if nonEmpty (stderr res) then [Info (stderr res)] else [])
        ++ [SetFailed
              "unexpected state, golangci-lint exited with 1, but provided no lint output"])%list).
Proof.
  intro C. split.
  - intro G. unfold printOutput, interpretResult, markedFailed.
    rewrite (exitCode_Some res c C).
    destruct (processOutput JSON_parse h res) as [t [e | lintOutput]];
      cbn [tryCatch throw bind].
    + eexists. split; [eexists; reflexivity |]. right. exists e. reflexivity.
    + replace (c =? 1)%Z with false by (symmetry; apply Z.eqb_neq; lia).
      replace (c >? 1)%Z with true by (symmetry; apply Z.gtb_lt; lia).
      destruct (nonEmpty (stderr res));
        cbn [ret throw emit bind app];
        (eexists; split; [eexists; reflexivity | left; reflexivity]).
  - intros -> Out. unfold printOutput, interpretResult, processOutput.
    rewrite (exitCode_Some res 1 C), Out.
    destruct (nonEmpty (stderr res)); reflexivity.
Qed.

(** Output that [parseOutput] rejects marks the run failed, with the thrown
    value in the message. *)
Lemma printOutput_malformed (h : Host) (res : ExecRes) (e : thrown) :
  nonEmpty (stdout res) = true ->
  parseOutput JSON_parse (stdout res) = inl e ->
  printOutput JSON_parse h res =
    [SetFailed ("there was an error processing golangci-lint output: "
                  ++ render e)].
Proof.
  intros S P. unfold printOutput, interpretResult, processOutput.
  rewrite S, P. reflexivity.
Qed.

Lemma hasFailingIssues_no_call (h : Host) (issues : list LintIssue) :
  filter isApiCall (trace (hasFailingIssues h issues)) = [].
Proof.
  unfold hasFailingIssues, trace.
  destruct (indexOf (toLowerCase (getInput h "failure-severity"))
                    LintSeverity_values <? 0)%Z; reflexivity.
Qed.









End DriverProperties.

(* ================================================================== *)
(** * Properties of the execution driver *)

Lemma has_In (names : list string) (name : string) :
  has names name = true <-> In name names.
Proof.
  unfold has. rewrite existsb_exists. split.
  - intros [n [I E]]. apply String.eqb_eq in E. now subst.
  - intro I. exists name. split; [exact I | apply String.eqb_refl].
Qed.

Lemma removeFirst_leading (c : ascii) (s : string) :
  startsWithChar c s = true -> String c (removeFirst c s) = s.
Proof.
  destruct s as [| d r]; simpl; [discriminate |].
  intro E. rewrite E. apply Ascii.eqb_eq in E. now subst.
Qed.

(** What the check on the output format looks at: the argument string is
    rejected exactly when one of its tokens, cut at its first [=], is
    [-out-format] with a single dash. *)
Lemma out_format_rejected_iff (userArgs : string) :
  has (userArgNames userArgs) "out-format" = true <->
  exists token, In token (splitWhiteSpace userArgs) /\
                hd "" (splitChar "=" token) = "-out-format".
Proof.
  rewrite has_In. unfold userArgNames. rewrite in_map_iff. split.
  - intros [arg [R I]]. apply filter_In in I as [I S].
    apply in_map_iff in I as [token [H I]]. exists token. split; [exact I |].
    rewrite H, <- (removeFirst_leading "-" arg S), R. reflexivity.
  - intros [token [I H]]. exists "-out-format". split; [reflexivity |].
    apply filter_In. split; [| reflexivity].
    apply in_map_iff. exists token. split; assumption.
Qed.

Section DriverEvaluation.

Variable JSON_parse : string -> result jsval.

(** C1, where the code departs from it. With the user arguments
    [--out-format=xml] the argument name the driver records is
    [-out-format], which is not the [out-format] it looks for: no
    configuration error is thrown and the subprocess is started with both
    output formats on its command line. *)
Theorem runLint_double_dash_out_format :
  let h := hostWith [("args", "--out-format=xml")] "schedule" (Resolved "" "") in
  userArgNames "--out-format=xml" = ["-out-format"]
  /\ runLint JSON_parse h "golangci-lint" "" =
       ([Info "Running [golangci-lint run --out-format=json --out-format=xml] in [] ...";
         Exec "golangci-lint run --out-format=json --out-format=xml" None;
         Info "golangci-lint found no blocking issues";
         Info "Ran golangci-lint in 1200ms"],
        inr tt).
Proof. split; vm_compute; reflexivity. Qed.

(** The same argument with a single dash is what the driver rejects,
    before anything is started. *)
Lemma runLint_single_dash_out_format :
  runLint JSON_parse
    (hostWith [("args", "-out-format=xml")] "schedule" (Resolved "" ""))
    "golangci-lint" "" =
    ([], inl (newError
       "please, don't change out-format for golangci-lint: it can be broken in a future")).
Proof. vm_compute. reflexivity. Qed.

End DriverEvaluation.

(* ================================================================== *)
(** * Instances *)

Lemma hasFailingIssues_monotone_witness :
  outcome (hasFailingIssues
             (hostWith [("failure-severity", "warning")] "push" (Resolved "" ""))
             [issueAt 3 7 None failure]) = inr true.
Proof.
  apply (hasFailingIssues_monotone
           (hostWith [("failure-severity", "warning")] "push" (Resolved "" ""))
           (hostWith [("failure-severity", "Failure")] "push" (Resolved "" ""))
           [issueAt 3 7 None failure]).
  - vm_compute. discriminate.
  - reflexivity.
Defined.

Lemma annotateLintIssues_batches_witness :
  let h := hostWith [("github-token", "secret")] "push" (Resolved "" "") in
  let issues := repeat (issueAt 3 7 None warning) 120 in
  let batches := updateBatches (trace (annotateLintIssues h issues)) in
  Z.of_nat (List.length batches) = 3%Z
  /\ Forall (fun batch => List.length batch <= 50) batches
  /\ list_sum (map (@List.length GithubAnnotation) batches) = 120
  /\ List.concat batches = map annotationOf issues.
Proof.
  exact (annotateLintIssues_batches
           (hostWith [("github-token", "secret")] "push" (Resolved "" ""))
           (repeat (issueAt 3 7 None warning) 120)
           "golangci-lint" eq_refl eq_refl).
Defined.

Lemma printOutput_fatal_exit_witness :
  let h := hostWith [] "push" (Resolved "" "") in
  let P := parsesTo oneIssueText oneIssueValue in
  (exists msg,
     markedFailed
       (printOutput P h {| stdout := oneIssueText; stderr := ""; code := Some 3%Z |})
       msg /\
     (msg = "golangci-lint exit with code " ++ showNumber 3 \/
      exists e, msg = "there was an error processing golangci-lint output: "
                        ++ render e))
  /\ printOutput P h {| stdout := ""; stderr := "crash"; code := Some 1%Z |} =
       [Info "crash";
        SetFailed
          "unexpected state, golangci-lint exited with 1, but provided no lint output"].
Proof.
  split.
  - apply (printOutput_fatal_exit (parsesTo oneIssueText oneIssueValue)
             (hostWith [] "push" (Resolved "" ""))
             {| stdout := oneIssueText; stderr := ""; code := Some 3%Z |} 3%Z
             eq_refl).
    lia.
  - apply (printOutput_fatal_exit (parsesTo oneIssueText oneIssueValue)
             (hostWith [] "push" (Resolved "" ""))
             {| stdout := ""; stderr := "crash"; code := Some 1%Z |} 1%Z
             eq_refl); reflexivity.
Defined.



(* ================================================================== *)
(** * Worked examples *)

Example normalize_Minor : normalizeSeverity "Minor" = JStr "warning".
Proof. reflexivity. Qed.

Example normalize_ignore : normalizeSeverity "ignore" = JStr "failure".
Proof. reflexivity. Qed.

Example parse_two_issues :
  parseOutput (parsesTo twoIssuesText twoIssuesValue) twoIssuesText =
    inr (JObj [("Issues", JArr [JObj [("Severity", JStr "failure");
                                      ("Text", JStr "a")]]);
               ("Report", JObj [])]).
Proof. vm_compute. reflexivity. Qed.

Example print_one_issue_on_push :
  printOutput (parsesTo oneIssueText oneIssueValue)
    (hostWith [("github-token", "secret")] "push" (Resolved "" ""))
    {| stdout := oneIssueText; stderr := ""; code := Some 1%Z |} =
    [Info "::error::main.go:3:7 - unused variable (deadcode)";
     ChecksGet;
     ChecksUpdate "golangci-lint" "golangci-lint"
       [{| path := "main.go"; start_line := 3; end_line := 3;
           start_column := Some 7%Z; end_column := Some 7%Z;
           title := "deadcode"; message := "unused variable";
           annotation_level := failure; raw_details := None |}];
     Info ("::warning::failure-severity must be one of (0 | 1 | 2 | notice | warning | failure). "
            ++ String "034" "" ++ String "034" ""
            ++ " not supported, using default (notice)");
     SetFailed "issues found"].
Proof. vm_compute. reflexivity. Qed.

(** The report of a deletion, whose [Replacement] has no [NewLines], under
    a [schedule] event: the issue is logged whatever the exit code is, and
    the exit code decides the verdict. *)
Example print_deletion_on_schedule :
  let run c :=
    printOutput (parsesTo deletionText deletionValue)
      (hostWith [("failure-severity", "failure")] "schedule" (Resolved "" ""))
      {| stdout := deletionText; stderr := ""; code := c |} in
  run None
  = [Info "::error::main.go:3:7 - unused variable (deadcode)"; cleanLine]
  /\ run (Some 1%Z)
     = [Info "::error::main.go:3:7 - unused variable (deadcode)";
        SetFailed "issues found"]
  /\ run (Some 3%Z)
     = [Info "::error::main.go:3:7 - unused variable (deadcode)";
        SetFailed "golangci-lint exit with code 3"].
Proof. repeat split; vm_compute; reflexivity. Qed.

(* ================================================================== *)
(** * Further properties of the result parser *)

Lemma lookup_setField_other (name other : string) (v : jsval)
      (fields : list (string * jsval)) :
  other <> name ->
  lookup other (setField name v fields) = lookup other fields.
Proof.
  intro N. induction fields as [| [k x] rest IH]; simpl.
  - destruct (String.eqb_spec name other); [congruence | reflexivity].
  - destruct (String.eqb_spec k name) as [E | E]; simpl.
    + subst k. destruct (String.eqb_spec name other); [congruence | reflexivity].
    + destruct (k =? other); [reflexivity | exact IH].
Qed.

Section ParserShape.

Variable JSON_parse : string -> result jsval.

(** The two ways [parseOutput] succeeds: the parsed value comes back as it
    is, its [Issues] having a falsy [length]; or it is an object and comes
    back with its [Issues] replaced by issues that all carry [failure]. *)
Lemma parseOutput_success (text : string) (report : jsval) :
  parseOutput JSON_parse text = inr report ->
  exists parsed,
    JSON_parse text = inr parsed /\
    ((report = parsed /\
      exists issues len,
        getProp parsed "Issues" = inr issues /\
        getProp issues "length" = inr len /\ truthy len = false)
     \/
     (exists fields mapped,
        parsed = JObj fields /\
        report = JObj (setField "Issues" (JArr mapped) fields) /\
        Forall (fun y => getProp y "Severity" = inr (JStr "failure")) mapped)).
Proof.
  unfold parseOutput. intro H.
  destruct (JSON_parse text) as [e | lintOutput]; simpl in H; [discriminate |].
  exists lintOutput. split; [reflexivity |].
  destruct (getProp lintOutput "Report") as [e | r]; simpl in H; [discriminate |].
  destruct (truthy r); simpl in H; [| discriminate].
  destruct (getProp lintOutput "Issues") as [e | raw] eqn:I; simpl in H;
    [discriminate |].
  destruct (getProp raw "length") as [e | len] eqn:L; simpl in H; [discriminate |].
  destruct (truthy len) eqn:T.
  - right.
    destruct (Array_filter raw keepIssue) as [e | kept] eqn:F; simpl in H;
      [discriminate |].
    destruct (mapR remapIssue kept) as [e | mapped] eqn:M; simpl in H;
      [discriminate |].
    destruct lintOutput; simpl in H; try discriminate.
    injection H as <-. exists fields, mapped. repeat split.
    destruct raw; simpl in F; try discriminate.
    apply filterR_kept in F.
    exact (mapR_each remapIssue _ _ kept mapped remapIssue_failure F M).
  - left. injection H as <-. split; [reflexivity |].
    exists raw, len. repeat split; assumption.
Qed.

(** X1. [parseOutput] touches nothing but [Issues]: every other property of
    the report it returns, the advisory [Report] first of all, is the one
    [JSON.parse] produced. *)
Theorem parseOutput_keeps_other_properties (text : string) (report : jsval) :
  parseOutput JSON_parse text = inr report ->
  exists parsed,
    JSON_parse text = inr parsed /\
    forall name, name <> "Issues" -> getProp report name = getProp parsed name.
Proof.
  intro H. destruct (parseOutput_success text report H) as [parsed [P C]].
  exists parsed. split; [exact P |]. intros name N.
  destruct C as [[-> _] | [fields [mapped [-> [-> _]]]]]; [reflexivity |].
  simpl. now rewrite (lookup_setField_other "Issues" name).
Qed.

(** X2. When the [Issues] of a value that has the advisory sub-structure
    have a falsy [length] (an empty array; also a number or an object
    without [length]), [parseOutput] returns the parsed value unchanged. *)
Theorem parseOutput_empty_issues (text : string) (parsed issues len : jsval) :
  JSON_parse text = inr parsed ->
  hasReport parsed = true ->
  getProp parsed "Issues" = inr issues ->
  getProp issues "length" = inr len ->
  truthy len = false ->
  parseOutput JSON_parse text = inr parsed.
Proof.
  intros P R I L T. unfold parseOutput. rewrite P. simpl.
  destruct parsed as [| | b | n | s | elems | fields | native]; simpl in R;
    try discriminate.
  simpl in I |- *.
  destruct (lookup "Report" fields) as [r |]; [| discriminate].
  rewrite R. simpl. injection I as I. rewrite I. rewrite L. simpl.
  now rewrite T.
Qed.

(** X3. A value that has the advisory sub-structure but whose [Issues] are
    not an array and have no falsy [length] to stop at (they are missing,
    [null], a non-empty string, an object with a truthy [length]) makes
    [parseOutput] throw a [TypeError], not the [invalid json] message. *)
Theorem parseOutput_issues_not_array (text : string) (parsed issues : jsval) :
  JSON_parse text = inr parsed ->
  hasReport parsed = true ->
  getProp parsed "Issues" = inr issues ->
  isArray issues = false ->
  (forall len, getProp issues "length" = inr len -> truthy len = true) ->
  exists message, parseOutput JSON_parse text = inl (TypeError message).
Proof.
  intros P R I A L. unfold parseOutput. rewrite P. simpl.
  destruct parsed as [| | b | n | s | elems | fields | native]; simpl in R;
    try discriminate.
  simpl in I |- *.
  destruct (lookup "Report" fields) as [r |]; [| discriminate].
  rewrite R. simpl. injection I as I. rewrite I.
  destruct (getProp issues "length") as [e | len] eqn:G.
  - destruct issues; simpl in G; try discriminate;
      injection G as <-; eexists; reflexivity.
  - simpl. rewrite (L len eq_refl).
    destruct issues; simpl in A |- *; try discriminate;
      eexists; reflexivity.
Qed.

End ParserShape.

Lemma parseOutput_keeps_other_properties_witness :
  exists parsed,
    parsesTo twoIssuesText twoIssuesValue twoIssuesText = inr parsed /\
    forall name, name <> "Issues" ->
      getProp (JObj [("Issues", JArr [JObj [("Severity", JStr "failure");
                                            ("Text", JStr "a")]]);
                     ("Report", JObj [])]) name
      = getProp parsed name.
Proof.
  apply (parseOutput_keeps_other_properties
           (parsesTo twoIssuesText twoIssuesValue) twoIssuesText).
  vm_compute. reflexivity.
Defined.

Lemma parseOutput_empty_issues_witness :
  parseOutput (fun _ => inr (JObj [("Issues", JArr []); ("Report", JObj [])]))
              "{}"
  = inr (JObj [("Issues", JArr []); ("Report", JObj [])]).
Proof.
  apply (parseOutput_empty_issues
           (fun _ => inr (JObj [("Issues", JArr []); ("Report", JObj [])]))
           "{}" (JObj [("Issues", JArr []); ("Report", JObj [])])
           (JArr []) (JNum 0)); reflexivity.
Defined.

Lemma parseOutput_issues_not_array_witness :
  exists message,
    parseOutput (fun _ => inr (JObj [("Issues", JNull); ("Report", JObj [])]))
                "{}"
    = inl (TypeError message).
Proof.
  apply (parseOutput_issues_not_array
           (fun _ => inr (JObj [("Issues", JNull); ("Report", JObj [])]))
           "{}" (JObj [("Issues", JNull); ("Report", JObj [])]) JNull);
    try reflexivity.
  intros len H. discriminate H.
Defined.

(* ================================================================== *)
(** * The issues that reach the gate and the publisher *)

Lemma asLintIssue_failure (v : jsval) (issue : LintIssue) :
  getProp v "Severity" = inr (JStr "failure") ->
  asLintIssue v = Some issue ->
  Severity issue = failure.
Proof.
  unfold asLintIssue. intros G H.
  destruct v as [| | b | n | s | elems | fields | native]; simpl in H; try discriminate.
  simpl in G. injection G as G.
  unfold field in H. cbn [bindO] in H. rewrite G in H.
  destruct (asString _) as [t |]; cbn [bindO] in H; [| discriminate].
  destruct (asString _) as [l |]; cbn [bindO] in H; [| discriminate].
  cbn [asSeverity String.eqb Ascii.eqb Bool.eqb] in H. cbn [bindO] in H.
  destruct (asPosition _) as [p |]; cbn [bindO] in H; [| discriminate].
  destruct (asRange _) as [r |]; cbn [bindO] in H; [| discriminate].
  destruct (asSuggestion _) as [x |]; cbn [bindO] in H; [| discriminate].
  injection H as <-. reflexivity.
Qed.

Lemma traverse_Forall2 {A B : Type} (f : A -> option B) (l : list A) (r : list B) :
  traverse f l = Some r -> Forall2 (fun x y => f x = Some y) l r.
Proof.
  revert r. induction l as [| x rest IH]; simpl; intros r H.
  - injection H as <-. constructor.
  - destruct (f x) as [y |] eqn:F; simpl in H; [| discriminate].
    destruct (traverse f rest) as [ys |]; simpl in H; [| discriminate].
    injection H as <-. constructor; [exact F | now apply IH].
Qed.

Lemma asLintIssues_failure (elems : list jsval) (issues : list LintIssue) :
  Forall (fun y => getProp y "Severity" = inr (JStr "failure")) elems ->
  traverse asLintIssue elems = Some issues ->
  Forall (fun issue => Severity issue = failure) issues.
Proof.
  intros F T. apply traverse_Forall2 in T.
  induction T as [| x y l r H _ IH]; [constructor |].
  inversion F; subst. constructor; [| now apply IH].
  now apply (asLintIssue_failure x).
Qed.

Lemma annotation_level_annotationOf (issue : LintIssue) :
  annotation_level (annotationOf issue) = Severity issue.
Proof.
  unfold annotationOf.
  destruct (LineRange issue), (Replacement issue), (nonZero (Column (Pos issue)));
    reflexivity.
Qed.

Section TypedIssues.

Variable JSON_parse : string -> result jsval.

Lemma parsed_issues_failure (text : string) (parsed : jsval) (output : LintOutput) :
  parseOutput JSON_parse text = inr parsed ->
  asLintOutput parsed = Some output ->
  Forall (fun issue => Severity issue = failure) (Issues output).
Proof.
  intros P A.
  destruct (parseOutput_success JSON_parse text parsed P) as [raw [_ C]].
  destruct (asLintOutput_Some parsed output A) as [v' [G B]].
  destruct C as [[-> [v [len [I [L T]]]]] | [fields [mapped [-> [-> F]]]]].
  - rewrite I in G. injection G as <-.
    destruct v as [| | b | n | s | elems | fs | native]; simpl in B;
      try discriminate.
    simpl in L. injection L as <-.
    destruct elems; [| discriminate T].
    simpl in B. injection B as B. rewrite <- B. constructor.
  - simpl in G. rewrite lookup_setField in G. injection G as <-.
    simpl in B. now apply (asLintIssues_failure mapped).
Qed.

(** X4. Every issue of a report that [parseOutput] returned and that is a
    member of [LintOutput] has the severity [failure]: whatever the tool reported, it is
    logged as an error and annotated at the level [failure]. *)
Theorem parsed_issues_are_failures (text : string) (parsed : jsval)
        (output : LintOutput) :
  parseOutput JSON_parse text = inr parsed ->
  asLintOutput parsed = Some output ->
  Forall (fun issue =>
            Severity issue = failure
            /\ annotation_level (annotationOf issue) = failure
            /\ exists rest, issueLine issue = "::error::" ++ rest)
         (Issues output).
Proof.
  intros P A. pose proof (parsed_issues_failure text parsed output P A) as F.
  apply Forall_forall. intros issue I.
  rewrite Forall_forall in F. specialize (F issue I).
  repeat split.
  - exact F.
  - now rewrite annotation_level_annotationOf.
  - unfold issueLine. rewrite F. eexists. reflexivity.
Qed.

End TypedIssues.

Lemma parsed_issues_are_failures_witness :
  Forall (fun issue =>
            Severity issue = failure
            /\ annotation_level (annotationOf issue) = failure
            /\ exists rest, issueLine issue = "::error::" ++ rest)
         [issueAt 3 7 None failure].
Proof.
  apply (parsed_issues_are_failures (parsesTo oneIssueText oneIssueValue)
           oneIssueText
           (JObj [("Issues",
                   JArr [JObj [("FromLinter", JStr "deadcode");
                               ("Text", JStr "unused variable");
                               ("Severity", JStr "failure");
                               ("Pos", JObj [("Filename", JStr "main.go");
                                             ("Line", JNum 3);
                                             ("Column", JNum 7)]);
                               ("Replacement", JNull)]]);
                  ("Report", JObj [])])
           {| Issues := [issueAt 3 7 None failure]; Report := JObj [] |});
    vm_compute; reflexivity.
Defined.

(* ================================================================== *)
(** * Further properties of the failure gate *)

(** X5. The gate fails the run exactly when some issue is at or above the
    resolved threshold under the severity order; the fast path taken at the
    threshold [notice] agrees with the scan. In particular it never fails a
    run without issues. *)
Theorem hasFailingIssues_iff (h : Host) (issues : list LintIssue) :
  outcome (hasFailingIssues h issues) = inr true <->
  exists issue,
    In issue issues /\
    severity_le (resolvedThreshold (getInput h "failure-severity"))
                (Severity issue).
Proof.
  rewrite hasFailingIssues_outcome. unfold failsAt, severity_le.
  set (t := resolvedThreshold (getInput h "failure-severity")).
  split.
  - intro H. injection H as H.
    destruct issues as [| first rest]; [discriminate |].
    cbn [List.length Nat.eqb negb] in H.
    destruct (Z.leb_spec (ordinal t) 0) as [L | L].
    + exists first. split; [now left |]. destruct (Severity first), t; simpl in *; lia.
    + apply existsb_exists in H as [issue [I G]].
      exists issue. split; [exact I |]. apply Z.geb_le in G. exact G.
  - intros [issue [I G]]. f_equal.
    destruct issues as [| first rest]; [contradiction |].
    cbn [List.length Nat.eqb negb].
    destruct (Z.leb_spec (ordinal t) 0) as [L | L]; [reflexivity |].
    apply existsb_exists. exists issue. split; [exact I |].
    apply Z.geb_le. exact G.
Qed.

(** X6. The gate logs its warning exactly when the configured label,
    lower-cased, is not one of [notice], [warning] and [failure]: a named
    severity in any letter case is accepted silently, every other label
    (the numbers 0, 1 and 2 written as text included) costs one log line,
    and nothing else is ever logged. *)
Theorem hasFailingIssues_warns_iff_unresolved (h : Host) (issues : list LintIssue) :
  let name := toLowerCase (getInput h "failure-severity") in
  (In name ["notice"; "warning"; "failure"] ->
   trace (hasFailingIssues h issues) = [])
  /\ (~ In name ["notice"; "warning"; "failure"] ->
      exists line, trace (hasFailingIssues h issues) = [Info line]).
Proof.
  cbv zeta. unfold hasFailingIssues, trace, indexOf.
  generalize (toLowerCase (getInput h "failure-severity")) as name. intro name.
  cbn [LintSeverity_values indexOfFrom].
  split.
  - intros [<- | [<- | [<- | []]]]; reflexivity.
  - intro N.
    destruct (String.eqb_spec "notice" name) as [E | _];
      [exfalso; apply N; now left |].
    destruct (String.eqb_spec "warning" name) as [E | _];
      [exfalso; apply N; right; now left |].
    destruct (String.eqb_spec "failure" name) as [E | _];
      [exfalso; apply N; right; right; now left |].
    eexists. reflexivity.
Qed.

Lemma hasFailingIssues_warns_iff_unresolved_witness :
  trace (hasFailingIssues
           (hostWith [("failure-severity", "Warning")] "push" (Resolved "" ""))
           [issueAt 3 7 None notice]) = []
  /\ exists line,
       trace (hasFailingIssues
                (hostWith [("failure-severity", "1")] "push" (Resolved "" ""))
                [issueAt 3 7 None notice]) = [Info line].
Proof.
  split.
  - apply (hasFailingIssues_warns_iff_unresolved
             (hostWith [("failure-severity", "Warning")] "push" (Resolved "" ""))).
    right. left. reflexivity.
  - apply (hasFailingIssues_warns_iff_unresolved
             (hostWith [("failure-severity", "1")] "push" (Resolved "" ""))).
    vm_compute. intros [H | [H | [H | []]]]; discriminate H.
Defined.

(* ================================================================== *)
(** * Further properties of the annotation publisher *)

Lemma chunkCount_positive (n : nat) : 0 < n -> 0 < chunkCount n.
Proof.
  intro P. pose proof (chunkCount_bounds n) as [L _].
  destruct (chunkCount n); [simpl in L; lia | lia].
Qed.

Lemma nth_chunks {A : Type} (l : list A) (i : nat) :
  i < chunkCount (List.length l) ->
  nth i (chunks l) [] = firstn chunkSize (skipn (i * chunkSize) l).
Proof.
  intro B. unfold chunks.
  rewrite (nth_indep _ [] (slice (0 * chunkSize) (0 * chunkSize + chunkSize) l))
    by (rewrite length_map, length_seq; exact B).
  rewrite (map_nth (fun i => slice (i * chunkSize) (i * chunkSize + chunkSize) l)
                   (seq 0 (chunkCount (List.length l))) 0 i).
  rewrite seq_nth by exact B. simpl plus. apply slice_chunk.
Qed.

Lemma chunks_sizes {A : Type} (l : list A) (i : nat) :
  i < List.length (chunks l) ->
  List.length (nth i (chunks l) []) =
    if (S i <? List.length (chunks l))%nat then chunkSize
    else List.length l - i * chunkSize.
Proof.
  unfold chunks at 1 3. rewrite !length_map, !length_seq. intro B.
  rewrite (nth_chunks l i B), length_firstn, length_skipn.
  pose proof (chunkCount_bounds (List.length l)) as [Lo Hi].
  unfold chunkSize in *.
  destruct (Nat.ltb_spec (S i) (chunkCount (List.length l))); nia.
Qed.

(** X7. Every update call that is sent carries at least one annotation, and
    every call but the last carries exactly 50: only the last batch can be
    short, and for no issues no update is sent at all. *)
Theorem annotateLintIssues_batches_full (h : Host) (issues : list LintIssue)
        (currentTitle : string) :
  nonEmpty (getInput h "github-token") = true ->
  checksGet h = inr currentTitle ->
  let batches := updateBatches (trace (annotateLintIssues h issues)) in
  forall i, i < List.length batches ->
    nth i batches [] <> []
    /\ (S i < List.length batches -> List.length (nth i batches []) = 50).
Proof.
  intros Token Check. unfold annotateLintIssues, getRequiredInput, trace.
  rewrite Token, Check. cbn [ret throw emit emits lift bind fst app].
  change (updateBatches (ChecksGet :: ?t)) with (updateBatches t).
  rewrite updateBatches_updates. cbv zeta. intros i B.
  pose proof (chunks_sizes (map annotationOf issues) i B) as Sz.
  assert (C : i < chunkCount (List.length (map annotationOf issues))).
  { unfold chunks in B. now rewrite length_map, length_seq in B. }
  pose proof (chunkCount_bounds (List.length (map annotationOf issues))) as [Lo Hi].
  unfold chunkSize in *.
  split.
  - intro E. rewrite E in Sz. simpl in Sz.
    destruct (Nat.ltb_spec (S i) (List.length (chunks (map annotationOf issues))));
      [discriminate |].
    unfold chunks in H. rewrite length_map, length_seq in H. nia.
  - intro L. apply Nat.ltb_lt in L. now rewrite L in Sz.
Qed.

(** X8. No update is ever sent without a token and without the current
    check: when the [github-token] input is empty, [annotateLintIssues]
    throws before any request; when the lookup of the current check is
    rejected, it throws that rejection after the lookup and sends nothing
    else. *)
Theorem annotateLintIssues_needs_token_and_check (h : Host)
        (issues : list LintIssue) :
  (nonEmpty (getInput h "github-token") = false ->
   trace (annotateLintIssues h issues) = []
   /\ exists e, outcome (annotateLintIssues h issues) = inl e)
  /\ (forall e,
        nonEmpty (getInput h "github-token") = true ->
        checksGet h = inl e ->
        trace (annotateLintIssues h issues) = [ChecksGet]
        /\ outcome (annotateLintIssues h issues) = inl e).
Proof.
  unfold annotateLintIssues, getRequiredInput, trace, outcome. split.
  - intros ->. split; [reflexivity | eexists; reflexivity].
  - intros e -> ->. split; reflexivity.
Qed.

Lemma annotateLintIssues_batches_full_witness :
  let h := hostWith [("github-token", "secret")] "push" (Resolved "" "") in
  let batches :=
    updateBatches
      (trace (annotateLintIssues h (repeat (issueAt 3 7 None warning) 120))) in
  nth 1 batches [] <> [] /\ List.length (nth 1 batches []) = 50.
Proof.
  destruct (annotateLintIssues_batches_full
              (hostWith [("github-token", "secret")] "push" (Resolved "" ""))
              (repeat (issueAt 3 7 None warning) 120) "golangci-lint"
              eq_refl eq_refl 1) as [NonEmpty Full].
  - vm_compute. lia.
  - split; [exact NonEmpty | apply Full; vm_compute; lia].
Defined.

Lemma annotateLintIssues_needs_token_and_check_witness :
  trace (annotateLintIssues (hostWith [] "push" (Resolved "" ""))
                            [issueAt 3 7 None failure]) = []
  /\ exists e,
       outcome (annotateLintIssues (hostWith [] "push" (Resolved "" ""))
                                   [issueAt 3 7 None failure]) = inl e.
Proof.
  apply (annotateLintIssues_needs_token_and_check
           (hostWith [] "push" (Resolved "" "")) [issueAt 3 7 None failure]).
  reflexivity.
Defined.

(* ================================================================== *)
(** * Further properties of the interpretation of the result *)

Lemma annotateLintIssues_no_verdict (h : Host) (issues : list LintIssue) :
  filter (fun e => isSetFailed e || isExec e) (fst (annotateLintIssues h issues)) = [].
Proof.
  unfold annotateLintIssues, getRequiredInput.
  destruct (nonEmpty (getInput h "github-token")); [| reflexivity].
  destruct (checksGet h) as [e | t]; [reflexivity |].
  cbn [ret throw emit emits lift bind fst app filter isSetFailed isExec orb].
  induction (chunks (map annotationOf issues)); simpl; auto.
Qed.

Lemma hasFailingIssues_no_verdict (h : Host) (issues : list LintIssue) :
  filter (fun e => isSetFailed e || isExec e) (fst (hasFailingIssues h issues)) = [].
Proof.
  unfold hasFailingIssues.
  destruct (indexOf (toLowerCase (getInput h "failure-severity"))
                    LintSeverity_values <? 0)%Z; reflexivity.
Qed.

Lemma failsAt_failures (t : LintSeverity) (issues : list LintIssue) :
  Forall (fun issue => Severity issue = failure) issues ->
  failsAt (ordinal t) issues = negb (List.length issues =? 0)%nat.
Proof.
  intro F. unfold failsAt.
  destruct issues as [| first rest]; [reflexivity |].
  cbn [List.length Nat.eqb negb].
  destruct (Z.leb_spec (ordinal t) 0); [reflexivity |].
  inversion F as [| ? ? S _]; subst. simpl. rewrite S.
  destruct t; reflexivity.
Qed.



Lemma bind_returns {A B : Type} (m : action A) (k : A -> action B) (b : B) :
  snd (bind m k) = inr b ->
  exists a, snd m = inr a /\ snd (k a) = inr b.
Proof.
  destruct m as [t [e | a]]; simpl; [discriminate |].
  intro H. exists a. split; [reflexivity |].
  destruct (k a) as [t' r]. exact H.
Qed.


Lemma scan_failures (t : Z) (elems : list jsval) :
  (t <= 2)%Z ->
  Forall (fun y => getProp y "Severity" = inr (JStr "failure")) elems ->
  elems <> [] ->
  Runtime.scan t elems = inr true.
Proof.
  intros T F N. destruct elems as [| x rest]; [congruence |].
  inversion F as [| ? ? S _]; subst.
  cbn [Runtime.scan]. rewrite S. cbn [bindR ToString].
  unfold Runtime.enumAtLeast. cbn [String.eqb Ascii.eqb Bool.eqb ordinal].
  replace (2 >=? t)%Z with true by (symmetry; apply Z.geb_le; lia).
  reflexivity.
Qed.

(** Issues that all have the severity [failure] fail the gate as soon as
    there is one, whatever the threshold. *)
Lemma hasFailingIssues_failures (h : Host) (elems : list jsval) :
  Forall (fun y => getProp y "Severity" = inr (JStr "failure")) elems ->
  snd (Runtime.hasFailingIssues h (JArr elems))
  = inr (negb (List.length elems =? 0)%nat).
Proof.
  intro F. unfold Runtime.hasFailingIssues, indexOf, LintSeverity_values.
  cbn [indexOfFrom].
  set (name := toLowerCase (getInput h "failure-severity")).
  assert (L : truthy (JNum (Z.of_nat (List.length elems)))
              = negb (List.length elems =? 0)%nat)
    by (destruct elems; reflexivity).
  assert (N : negb (List.length elems =? 0)%nat = true -> elems <> [])
    by (destruct elems; [discriminate | discriminate]).
  destruct ("notice" =? name); [| destruct ("warning" =? name);
                                  [| destruct ("failure" =? name)]];
    cbn [Z.ltb Z.compare Z.add Z.leb ret emit bind lift snd getProp app
         String.eqb Ascii.eqb Bool.eqb Runtime.iterate Pos.compare
         Pos.compare_cont ordinal DefaultFailureSeverity];
    rewrite L; destruct (negb (List.length elems =? 0)%nat) eqn:E;
    try reflexivity;
    cbn [ret bind lift snd Runtime.iterate app];
    rewrite (scan_failures _ elems) by (try lia; auto); reflexivity.
Qed.

Section ResultProperties.

Variable JSON_parse : string -> result jsval.

Lemma processOutput_no_verdict (h : Host) (res : ExecRes) :
  filter (fun e => isSetFailed e || isExec e)
         (fst (processOutput JSON_parse h res)) = [].
Proof.
  unfold processOutput.
  destruct (nonEmpty (stdout res)); [| reflexivity].
  apply filter_bind; [reflexivity | intro parsed].
  apply filter_bind; [reflexivity | intro issues].
  apply filter_bind; [apply logLintIssues_only_logs; reflexivity |].
  intros _. apply filter_bind; [| reflexivity].
  destruct ((eventName h =? "pull_request") || (eventName h =? "push"));
    [| reflexivity].
  apply filter_bind; [reflexivity |]. intro again.
  apply annotateLintIssues_only_calls.
Qed.

(** When the inner block returns, it returns what [parseOutput] returned,
    and the [Issues] of that are an array. *)
Lemma processOutput_success (h : Host) (res : ExecRes) (output : jsval) :
  nonEmpty (stdout res) = true ->
  outcome (processOutput JSON_parse h res) = inr output ->
  parseOutput JSON_parse (stdout res) = inr output /\
  exists issues, getProp output "Issues" = inr (JArr issues).
Proof.
  unfold processOutput, outcome. intros -> H.
  apply bind_returns in H as [parsed [P H]].
  apply bind_returns in H as [issues [G H]].
  apply bind_returns in H as [u [L H]].
  apply bind_returns in H as [u' [_ H]].
  simpl in P, G, H. injection H as <-.
  split; [exact P |].
  destruct issues as [| | b | n | s | elems | fields | native];
    try discriminate L.
  exists elems. exact G.
Qed.


Lemma interpretResult_no_verdict (h : Host) (res : ExecRes) :
  filter (fun e => isSetFailed e || isExec e)
         (fst (interpretResult JSON_parse h res)) = [].
Proof.
  unfold interpretResult. apply filter_bind.
  - apply filter_tryCatch; [apply processOutput_no_verdict | reflexivity].
  - intro lintOutput. apply filter_bind.
    + destruct (nonEmpty (stderr res)); reflexivity.
    + intros _. destruct (exitCode res =? 1)%Z.
      * destruct (truthy lintOutput); [| reflexivity].
        apply filter_bind; [reflexivity |]. intro issues.
        apply filter_bind;
          [apply hasFailingIssues_only_logs; reflexivity |].
        intros []; reflexivity.
      * destruct (exitCode res >? 1)%Z; reflexivity.
Qed.

(** X9. [printOutput] gives exactly one verdict, and gives it last: its
    trace ends either with [core.setFailed] or with the line that reports a
    clean run, and before that it neither marks the run failed nor starts a
    subprocess. *)
Theorem printOutput_single_verdict (h : Host) (res : ExecRes) :
  exists body verdict,
    printOutput JSON_parse h res = (body ++ [verdict])%list
    /\ (verdict = cleanLine \/ exists msg, verdict = SetFailed msg)
    /\ filter (fun e => isSetFailed e || isExec e) body = [].
Proof.
  unfold printOutput.
  pose proof (interpretResult_no_verdict h res) as Q.
  destruct (interpretResult JSON_parse h res) as [t [e | u]]; simpl in Q.
  - exists t, (SetFailed (render e)). repeat split; [| exact Q].
    right. eexists. reflexivity.
  - exists t, cleanLine. repeat split; [now left | exact Q].
Qed.

(** X10. With exit code 0 (or none), the gate is not consulted: as long as
    processing the standard output did not throw, the run is reported
    clean, whatever issues the report holds, after the standard error, if
    any, is logged. *)
Theorem printOutput_exit_zero_clean (h : Host) (res : ExecRes)
        (output : jsval) :
  exitCode res = 0%Z ->
  outcome (processOutput JSON_parse h res) = inr output ->
  printOutput JSON_parse h res =
    (trace (processOutput JSON_parse h res)
       ++ (if nonEmpty (stderr res) then [Info (stderr res)] else [])
       ++ [cleanLine])%list.
Proof.
  unfold printOutput, interpretResult, outcome, trace. intros E O.
  rewrite E. destruct (processOutput JSON_parse h res) as [t [e | x]];
    simpl in O; [discriminate |].
  cbn [tryCatch bind fst].
  destruct (nonEmpty (stderr res)); cbn [ret emit bind app Z.eqb Z.gtb Z.compare];
    rewrite ?app_nil_r, <- ?app_assoc; reflexivity.
Qed.

(** X11. With exit code 1 and a report that was processed without a throw,
    the [Issues] of the report are an array, and the run is marked failed
    with [issues found] exactly when the array holds an issue, whatever
    the [failure-severity] input says: every issue [parseOutput] keeps has
    the severity [failure], which reaches any threshold. *)
Theorem printOutput_exit_one (h : Host) (res : ExecRes) (output : jsval) :
  code res = Some 1%Z ->
  nonEmpty (stdout res) = true ->
  outcome (processOutput JSON_parse h res) = inr output ->
  exists issues,
    getProp output "Issues" = inr (JArr issues)
    /\ (issues <> [] ->
        markedFailed (printOutput JSON_parse h res) "issues found")
    /\ (issues = [] ->
        exists body, printOutput JSON_parse h res = (body ++ [cleanLine])%list).
Proof.
  intros C S O.
  destruct (processOutput_success h res output S O) as [P [issues G]].
  exists issues. split; [exact G |].
  assert (F : Forall (fun y => getProp y "Severity" = inr (JStr "failure"))
                     issues).
  { destruct (parseOutput_success JSON_parse _ output P) as [raw [_ K]].
    destruct K as [[-> [v [len [I [L T]]]]] | [fields [mapped [-> [-> F]]]]].
    - rewrite I in G. injection G as ->. simpl in L. injection L as <-.
      destruct issues; [constructor | discriminate T].
    - simpl in G. rewrite lookup_setField in G. injection G as <-. exact F. }
  pose proof (hasFailingIssues_failures h issues F) as Gate.
  assert (Tr : truthy output = true).
  { destruct output as [| | b | n | s | elems | fields | native];
      try discriminate G; reflexivity. }
  unfold printOutput, interpretResult, markedFailed, outcome in *.
  rewrite (exitCode_Some res 1 C).
  destruct (processOutput JSON_parse h res) as [t [e | x]]; simpl in O;
    [discriminate |].
  injection O as ->.
  destruct (Runtime.hasFailingIssues h (JArr issues)) as [g [e | failing]]
    eqn:HF; simpl in Gate; [discriminate |].
  injection Gate as ->.
  split; intro N.
  - destruct issues as [| first rest]; [contradiction |].
    cbn [List.length Nat.eqb negb] in HF.
    destruct (nonEmpty (stderr res));
      cbn [tryCatch ret throw emit lift bind app Z.eqb Pos.eqb];
      rewrite Tr, G; cbn [ret throw emit lift bind app]; rewrite HF;
      cbn [ret throw emit lift bind app]; eexists; reflexivity.
  - subst issues. cbn [List.length Nat.eqb negb] in HF.
    destruct (nonEmpty (stderr res));
      cbn [tryCatch ret throw emit lift bind app Z.eqb Pos.eqb];
      rewrite Tr, G; cbn [ret throw emit lift bind app]; rewrite HF;
      cbn [ret throw emit lift bind app]; eexists; reflexivity.
Qed.



(** X13. When processing the standard output throws (it does not parse, it
    is not a report, an issue cannot be logged, publishing fails),
    [printOutput] marks the run failed with that error and stops there:
    the standard error is not logged and the exit code is not looked at. *)
Theorem printOutput_processing_error (h : Host) (res : ExecRes) (e : thrown) :
  outcome (processOutput JSON_parse h res) = inl e ->
  printOutput JSON_parse h res =
    (trace (processOutput JSON_parse h res) ++ [SetFailed (processingError e)])%list.
Proof.
  unfold printOutput, interpretResult, outcome, trace, processingError.
  destruct (processOutput JSON_parse h res) as [t [e' | x]]; simpl;
    [| discriminate].
  intro H. injection H as ->. now rewrite app_nil_r.
Qed.

End ResultProperties.

Lemma printOutput_exit_zero_clean_witness :
  printOutput (parsesTo deletionText deletionValue)
    (hostWith [] "schedule" (Resolved "" ""))
    {| stdout := deletionText; stderr := "note"; code := None |}
  = [Info "::error::main.go:3:7 - unused variable (deadcode)";
     Info "note";
     cleanLine].
Proof.
  exact (printOutput_exit_zero_clean (parsesTo deletionText deletionValue)
           (hostWith [] "schedule" (Resolved "" ""))
           {| stdout := deletionText; stderr := "note"; code := None |}
           (JObj [("Issues",
                   JArr [JObj [("FromLinter", JStr "deadcode");
                               ("Text", JStr "unused variable");
                               ("Severity", JStr "failure");
                               ("Pos", JObj [("Filename", JStr "main.go");
                                             ("Line", JNum 3);
                                             ("Column", JNum 7)]);
                               ("Replacement",
                                JObj [("NeedOnlyDelete", JBool true);
                                      ("NewLines", JNull)])]]);
                  ("Report", JObj [])])
           eq_refl eq_refl).
Defined.

Lemma printOutput_exit_one_witness :
  markedFailed
    (printOutput (parsesTo deletionText deletionValue)
       (hostWith [("failure-severity", "failure")] "schedule" (Resolved "" ""))
       {| stdout := deletionText; stderr := ""; code := Some 1%Z |})
    "issues found".
Proof.
  destruct (printOutput_exit_one (parsesTo deletionText deletionValue)
              (hostWith [("failure-severity", "failure")] "schedule"
                        (Resolved "" ""))
              {| stdout := deletionText; stderr := ""; code := Some 1%Z |}
              (JObj [("Issues",
                      JArr [JObj [("FromLinter", JStr "deadcode");
                                  ("Text", JStr "unused variable");
                                  ("Severity", JStr "failure");
                                  ("Pos", JObj [("Filename", JStr "main.go");
                                                ("Line", JNum 3);
                                                ("Column", JNum 7)]);
                                  ("Replacement",
                                   JObj [("NeedOnlyDelete", JBool true);
                                         ("NewLines", JNull)])]]);
                     ("Report", JObj [])])
              eq_refl eq_refl eq_refl)
    as [issues [G [Found _]]].
  apply Found. vm_compute in G. injection G as <-. discriminate.
Defined.


Lemma printOutput_processing_error_witness :
  printOutput (parsesTo deletionText deletionValue)
    (hostWith [("github-token", "secret")] "push" (Resolved "" ""))
    {| stdout := deletionText; stderr := "x"; code := Some 0%Z |}
  = [Info "::error::main.go:3:7 - unused variable (deadcode)";
     ChecksGet;
     SetFailed
       (processingError
          (TypeError "Cannot read property 'join' of null or undefined"))].
Proof.
  exact (printOutput_processing_error (parsesTo deletionText deletionValue)
           (hostWith [("github-token", "secret")] "push" (Resolved "" ""))
           {| stdout := deletionText; stderr := "x"; code := Some 0%Z |}
           (TypeError "Cannot read property 'join' of null or undefined")
           eq_refl).
Defined.

(* ================================================================== *)
(** * Further properties of the execution driver *)

(** X14. What [runLint] records as the user's argument names: a name is
    recorded exactly when some whitespace-separated token of the argument
    string, cut at its first [=], is a dash followed by that name. One dash
    is removed and no more, so a flag written with two dashes is recorded
    with a dash in front. *)
Theorem userArgNames_recorded (userArgs name : string) :
  In name (userArgNames userArgs) <->
  exists token,
    In token (splitWhiteSpace userArgs) /\
    hd "" (splitChar "=" token) = String "-" name.
Proof.
  unfold userArgNames. rewrite in_map_iff. split.
  - intros [arg [R I]]. apply filter_In in I as [I S].
    apply in_map_iff in I as [token [H I]]. exists token. split; [exact I |].
    rewrite H, <- (removeFirst_leading "-" arg S), R. reflexivity.
  - intros [token [I H]]. exists (String "-" name). split; [reflexivity |].
    apply filter_In. split; [| reflexivity].
    apply in_map_iff. exists token. split; assumption.
Qed.

(** X15. The configuration errors of [runLint], all raised before the lint
    subprocess is started: the command is refused exactly when the user's
    argument names hold [out-format]; or a patch path is given and they
    hold [new], [new-from-rev] or [new-from-patch]; or a working directory
    is given together with a patch path, or is not an existing directory.
    In particular a working directory and a patch path never go together. *)
Theorem prepareCommand_fails_iff (h : Host) (lintPath patchPath : string) :
  let names := userArgNames (getInput h "args") in
  let workingDirectory := getInput h "working-directory" in
  (exists e, prepareCommand h lintPath patchPath = inl e) <->
  has names "out-format" = true
  \/ (nonEmpty patchPath = true /\
      (has names "new" || has names "new-from-rev"
       || has names "new-from-patch") = true)
  \/ (nonEmpty workingDirectory = true /\
      (nonEmpty patchPath = true \/ isDirectory h workingDirectory = false)).
Proof.
  cbv zeta. unfold prepareCommand.
  destruct (has (userArgNames (getInput h "args")) "out-format").
  - split; [intros _; now left | intros _; eexists; reflexivity].
  - destruct (nonEmpty patchPath);
      destruct (has (userArgNames (getInput h "args")) "new"
                || has (userArgNames (getInput h "args")) "new-from-rev"
                || has (userArgNames (getInput h "args")) "new-from-patch");
      destruct (nonEmpty (getInput h "working-directory"));
      destruct (isDirectory h (getInput h "working-directory"));
      cbn [bindR negb];
      (split;
       [ intros [e H]; try discriminate H; tauto
       | intros [H | [[H1 H2] | [H1 [H2 | H2]]]]; try discriminate;
         eexists; reflexivity ]).
Qed.

(** X16. The command line [runLint] builds when it builds one: the lint
    path, [run], the forced [--out-format=json], then the three patch
    arguments when a patch path is given, then [--path-prefix] when a
    working directory is given and the user named no [path-prefix], then
    the user's arguments, with trailing white space removed; the
    subprocess runs in the resolved working directory when one is given. *)
Theorem prepareCommand_command (h : Host) (lintPath patchPath cmd : string)
        (cwd : option string) :
  let userArgs := getInput h "args" in
  let workingDirectory := getInput h "working-directory" in
  prepareCommand h lintPath patchPath = inr (cmd, cwd) ->
  cmd = trimRight
          (lintPath ++ " run --out-format=json"
             ++ (if nonEmpty patchPath
                 then " --new-from-patch=" ++ patchPath
                        ++ " --new=false --new-from-rev="
                 else "")
             ++ (if nonEmpty workingDirectory
                    && negb (has (userArgNames userArgs) "path-prefix")
                 then " --path-prefix=" ++ workingDirectory
                 else "")
             ++ " " ++ userArgs)
  /\ cwd = (if nonEmpty workingDirectory
            then Some (pathResolve h workingDirectory)
            else None).
Proof.
  cbv zeta. unfold prepareCommand.
  destruct (has (userArgNames (getInput h "args")) "out-format");
    [discriminate |].
  destruct (nonEmpty patchPath);
    destruct (has (userArgNames (getInput h "args")) "new"
              || has (userArgNames (getInput h "args")) "new-from-rev"
              || has (userArgNames (getInput h "args")) "new-from-patch");
    destruct (nonEmpty (getInput h "working-directory"));
    destruct (isDirectory h (getInput h "working-directory"));
    destruct (has (userArgNames (getInput h "args")) "path-prefix");
    cbn [bindR negb andb List.app join];
    intro H; try discriminate H; injection H as <- <-;
    (split; [f_equal; simpl; rewrite <- ?append_assoc; reflexivity | reflexivity]).
Qed.

Lemma filter_isExec_weaken (t : list event) :
  filter (fun e => isSetFailed e || isExec e) t = [] -> filter isExec t = [].
Proof.
  induction t as [| e rest IH]; [reflexivity |].
  destruct e; simpl; intro H; try discriminate; exact (IH H).
Qed.

Section RunLintProperties.

Variable JSON_parse : string -> result jsval.

Lemma printOutput_no_exec (h : Host) (res : ExecRes) :
  filter isExec (printOutput JSON_parse h res) = [].
Proof.
  unfold printOutput.
  pose proof (interpretResult_no_verdict JSON_parse h res) as Q.
  apply filter_isExec_weaken in Q.
  destruct (interpretResult JSON_parse h res) as [t [e | u]]; simpl in Q;
    rewrite filter_app, Q; reflexivity.
Qed.

(** X17. Without the [cache] debug flag, [runLint] either throws a
    configuration error, having started and logged nothing, or starts
    exactly one subprocess, with the command and the directory it
    prepared, and then returns normally whatever the subprocess did: a
    failing tool marks the run failed but is never an exception of the
    driver. *)
Theorem runLint_one_subprocess (h : Host) (lintPath patchPath : string) :
  debugsCache h = false ->
  match prepareCommand h lintPath patchPath with
  | inl e => runLint JSON_parse h lintPath patchPath = ([], inl e)
  | inr (cmd, cwd) =>
      outcome (runLint JSON_parse h lintPath patchPath) = inr tt
      /\ filter isExec (trace (runLint JSON_parse h lintPath patchPath))
         = [Exec cmd cwd]
  end.
Proof.
  unfold debugsCache, runLint, outcome, trace. intros ->.
  destruct (prepareCommand h lintPath patchPath) as [e | [cmd cwd]];
    cbn [ret throw emit emits lift bind app fst snd]; [reflexivity |].
  split; [reflexivity |].
  cbn [filter isExec]. rewrite filter_app, printOutput_no_exec. reflexivity.
Qed.

(** X18. With the [cache] debug flag the cache status is run first and its
    output is handed to [printOutput] like the output of a lint run: when
    the status command prints something that [parseOutput] rejects, the run
    is marked failed with a processing error straight after the command,
    before the lint arguments are even looked at. *)
Theorem runLint_cache_status_output (h : Host) (lintPath patchPath out err : string)
        (e : thrown) :
  debugsCache h = true ->
  execShellCommand h (lintPath ++ " cache status") None = Resolved out err ->
  nonEmpty out = true ->
  parseOutput JSON_parse out = inl e ->
  exists rest,
    trace (runLint JSON_parse h lintPath patchPath)
    = Exec (lintPath ++ " cache status") None
        :: SetFailed (processingError e) :: rest.
Proof.
  unfold debugsCache, runLint, trace. intros -> -> S P.
  rewrite (printOutput_malformed JSON_parse h
             {| stdout := out; stderr := err; code := None |} e S P).
  destruct (prepareCommand h lintPath patchPath) as [x | [cmd cwd]];
    cbn [ret throw emit emits lift bind app fst]; eexists; reflexivity.
Qed.

(** X19. With the [cache] debug flag, a cache status command that fails
    aborts [runLint]: it throws after that one subprocess, and the lint
    subprocess is never started. *)
Theorem runLint_cache_status_fails (h : Host) (lintPath patchPath : string)
        (exc : ExecRes) :
  debugsCache h = true ->
  execShellCommand h (lintPath ++ " cache status") None = Rejected exc ->
  trace (runLint JSON_parse h lintPath patchPath)
  = [Exec (lintPath ++ " cache status") None]
  /\ exists e, outcome (runLint JSON_parse h lintPath patchPath) = inl e.
Proof.
  unfold debugsCache, runLint, trace, outcome. intros -> ->.
  split; [reflexivity | eexists; reflexivity].
Qed.

End RunLintProperties.

Lemma prepareCommand_command_witness :
  "golangci-lint run --out-format=json --new-from-patch=/tmp/x/pull.patch --new=false --new-from-rev= -v"
  = trimRight
      ("golangci-lint" ++ " run --out-format=json"
         ++ (" --new-from-patch=" ++ "/tmp/x/pull.patch"
               ++ " --new=false --new-from-rev=")
         ++ "" ++ " " ++ "-v  ")
  /\ @None string = None.
Proof.
  exact (prepareCommand_command
           (hostWith [("args", "-v  ")] "pull_request" (Resolved "" ""))
           "golangci-lint" "/tmp/x/pull.patch"
           "golangci-lint run --out-format=json --new-from-patch=/tmp/x/pull.patch --new=false --new-from-rev= -v"
           None eq_refl).
Defined.

Lemma runLint_one_subprocess_witness :
  outcome (runLint (parsesTo oneIssueText oneIssueValue)
             (hostWith [("args", "-v")] "push"
                (Rejected {| stdout := ""; stderr := "panic"; code := Some 3%Z |}))
             "golangci-lint" "") = inr tt
  /\ filter isExec
       (trace (runLint (parsesTo oneIssueText oneIssueValue)
                 (hostWith [("args", "-v")] "push"
                    (Rejected {| stdout := ""; stderr := "panic"; code := Some 3%Z |}))
                 "golangci-lint" ""))
     = [Exec "golangci-lint run --out-format=json -v" None].
Proof.
  exact (runLint_one_subprocess (parsesTo oneIssueText oneIssueValue)
           (hostWith [("args", "-v")] "push"
              (Rejected {| stdout := ""; stderr := "panic"; code := Some 3%Z |}))
           "golangci-lint" "" eq_refl).
Defined.

Lemma runLint_cache_status_output_witness :
  exists rest,
    trace (runLint (parsesTo oneIssueText oneIssueValue)
             (hostWith [("debug", "cache")] "push"
                (Resolved "Dir: /home/runner/.cache" ""))
             "golangci-lint" "")
    = Exec ("golangci-lint" ++ " cache status") None
        :: SetFailed (processingError (SyntaxError "Unexpected token")) :: rest.
Proof.
  apply (runLint_cache_status_output (parsesTo oneIssueText oneIssueValue)
           (hostWith [("debug", "cache")] "push"
              (Resolved "Dir: /home/runner/.cache" ""))
           "golangci-lint" "" "Dir: /home/runner/.cache" "");
    reflexivity.
Defined.

Lemma runLint_cache_status_fails_witness :
  trace (runLint (parsesTo oneIssueText oneIssueValue)
           (hostWith [("debug", "stats,cache")] "push"
              (Rejected {| stdout := ""; stderr := "x"; code := Some 1%Z |}))
           "golangci-lint" "")
  = [Exec ("golangci-lint" ++ " cache status") None]
  /\ exists e,
       outcome (runLint (parsesTo oneIssueText oneIssueValue)
                  (hostWith [("debug", "stats,cache")] "push"
                     (Rejected {| stdout := ""; stderr := "x"; code := Some 1%Z |}))
                  "golangci-lint" "") = inl e.
Proof.
  apply (runLint_cache_status_fails (parsesTo oneIssueText oneIssueValue)
           (hostWith [("debug", "stats,cache")] "push"
              (Rejected {| stdout := ""; stderr := "x"; code := Some 1%Z |}))
           "golangci-lint" ""
           {| stdout := ""; stderr := "x"; code := Some 1%Z |});
    reflexivity.
Defined.

(* ================================================================== *)
(** * Properties of the retrieval of the patch *)

Lemma nonEmpty_false (s : string) : nonEmpty s = false <-> s = "".
Proof.
  unfold nonEmpty. rewrite negb_false_iff. apply String.eqb_eq.
Qed.

(** X20. [fetchPatch] throws in two cases only, and then before any
    effect: when the [only-new-issues] input is neither [true] nor
    [false]; and when it is [true], the event is a pull request that the
    payload names, and the [github-token] input is empty. No failure of the
    review API or of the file system makes it throw. *)
Theorem fetchPatch_throws_iff (h : Host) (r : ReviewHost) :
  ((exists e, ending (fetchPatch h r) = inl e) <->
   (getInput h "only-new-issues" <> "true" /\
    getInput h "only-new-issues" <> "false")
   \/ (getInput h "only-new-issues" = "true" /\
       eventName h = "pull_request" /\
       pull_request r <> None /\
       getInput h "github-token" = ""))
  /\ (forall e, ending (fetchPatch h r) = inl e -> effects (fetchPatch h r) = []).
Proof.
  unfold fetchPatch, getRequiredInput, ofAction, ending, effects, nonEmpty.
  destruct (String.eqb_spec (getInput h "only-new-issues") "") as [E0 | N0];
    cbn [negb ret throw fst snd map andThen app].
  { split; [| reflexivity].
    split; [intros _; left; rewrite E0; split; discriminate
           | intros _; eexists; reflexivity]. }
  destruct (String.eqb_spec (getInput h "only-new-issues") "false") as [EF | NF];
    cbn [negb andb].
  { split; [| discriminate].
    split; [intros [e H]; discriminate H |].
    intros [[_ H] | [H _]]; [contradiction | rewrite EF in H; discriminate H]. }
  destruct (String.eqb_spec (getInput h "only-new-issues") "true") as [ET | NT];
    cbn [negb andb fail done snd fst].
  2: { split; [| reflexivity].
       split; [intros _; now left | intros _; eexists; reflexivity]. }
  destruct (String.eqb_spec (eventName h) "pull_request") as [EP | NP];
    cbn [negb perform done andThen app fst snd].
  2: { split; [| discriminate].
       split; [intros [e H]; discriminate H |].
       intros [[H _] | [_ [H _]]]; contradiction. }
  destruct (pull_request r) as [number |];
    cbn [negb perform done andThen app fst snd].
  2: { split; [| discriminate].
       split; [intros [e H]; discriminate H |].
       intros [[H _] | [_ [_ [H _]]]]; contradiction. }
  destruct (String.eqb_spec (getInput h "github-token") "") as [EK | NK];
    cbn [negb ret throw fst snd map andThen app].
  { split; [| reflexivity].
    split; [intros _; right; repeat split; [assumption .. | discriminate | assumption]
           | intros _; eexists; reflexivity]. }
  assert (Never : forall A : Prop,
            (getInput h "only-new-issues" <> "true" /\
             getInput h "only-new-issues" <> "false")
            \/ (getInput h "only-new-issues" = "true" /\
                eventName h = "pull_request" /\
                Some number <> None /\
                getInput h "github-token" = "") -> A).
  { intros A [[H _] | [_ [_ [_ H]]]]; contradiction. }
  destruct (pullsGet r number) as [err | [status patch]];
    cbn [negb perform done andThen app fst snd].
  { split; [| discriminate].
    split; [intros [e H]; discriminate H | apply Never]. }
  destruct (status =? 200)%Z; cbn [negb perform done andThen app fst snd].
  2: { split; [| discriminate].
       split; [intros [e H]; discriminate H | apply Never]. }
  destruct (createTempDir r) as [err | tempDir];
    cbn [negb perform done andThen app fst snd].
  { split; [| discriminate].
    split; [intros [e H]; discriminate H | apply Never]. }
  destruct (writeFile r (pathJoin r tempDir "pull.patch") patch) as [err | u];
    cbn [negb perform done andThen app fst snd];
    (split; [| discriminate]);
    (split; [intros [e H]; discriminate H | apply Never]).
Qed.

(** X21. When only-new-issues mode is off, or on outside a pull request
    event, or on without a pull request in the payload, [fetchPatch]
    returns the empty path without sending a request and without touching
    the file system; it does not even need a token. *)
Theorem fetchPatch_skips (h : Host) (r : ReviewHost) :
  getInput h "only-new-issues" = "false"
  \/ (getInput h "only-new-issues" = "true" /\
      (eventName h <> "pull_request" \/ pull_request r = None)) ->
  ending (fetchPatch h r) = inr ""
  /\ filter isOutsideEffect (effects (fetchPatch h r)) = [].
Proof.
  unfold fetchPatch, getRequiredInput, ofAction, ending, effects.
  intros [E | [E C]]; rewrite E;
    cbn [nonEmpty String.eqb Ascii.eqb Bool.eqb negb andb ret fst snd map
         andThen app done].
  - split; reflexivity.
  - destruct (String.eqb_spec (eventName h) "pull_request") as [EP | NP];
      cbn [negb perform done andThen app fst snd];
      [| split; reflexivity].
    destruct C as [C | C]; [contradiction |]. rewrite C.
    split; reflexivity.
Qed.

(** X22. A path that [fetchPatch] returns is empty unless everything went
    well: a non-empty path means that the mode is on, that the event is a
    pull request named by the payload, that the diff was served with status
    200, and that it was written, as served, to [pull.patch] in a fresh
    temporary directory, which is the path returned. *)
Theorem fetchPatch_path (h : Host) (r : ReviewHost) (patchPath : string) :
  ending (fetchPatch h r) = inr patchPath ->
  patchPath <> "" ->
  getInput h "only-new-issues" = "true"
  /\ eventName h = "pull_request"
  /\ exists number patch tempDir,
       pull_request r = Some number
       /\ pullsGet r number = inr (200%Z, patch)
       /\ createTempDir r = inr tempDir
       /\ patchPath = pathJoin r tempDir "pull.patch"
       /\ writeFile r patchPath patch = inr tt
       /\ In (WriteFile patchPath patch) (effects (fetchPatch h r)).
Proof.
  unfold fetchPatch, getRequiredInput, ofAction, ending, effects, nonEmpty.
  destruct (String.eqb_spec (getInput h "only-new-issues") "") as [E0 | N0];
    cbn [negb ret throw fst snd map andThen app]; [discriminate |].
  destruct (String.eqb_spec (getInput h "only-new-issues") "false") as [EF | NF];
    cbn [negb andb done snd]; [congruence |].
  destruct (String.eqb_spec (getInput h "only-new-issues") "true") as [ET | NT];
    cbn [negb andb fail done snd fst]; [| discriminate].
  destruct (String.eqb_spec (eventName h) "pull_request") as [EP | NP];
    cbn [negb perform done andThen app fst snd]; [| congruence].
  destruct (pull_request r) as [number |];
    cbn [negb perform done andThen app fst snd]; [| congruence].
  destruct (String.eqb_spec (getInput h "github-token") "") as [EK | NK];
    cbn [negb ret throw fst snd map andThen app]; [discriminate |].
  destruct (pullsGet r number) as [err | [status patch]] eqn:G;
    cbn [negb perform done andThen app fst snd]; [congruence |].
  destruct (Z.eqb_spec status 200) as [-> | NS];
    cbn [negb perform done andThen app fst snd]; [| congruence].
  destruct (createTempDir r) as [err | tempDir];
    cbn [negb perform done andThen app fst snd]; [congruence |].
  destruct (writeFile r (pathJoin r tempDir "pull.patch") patch) as [err | []] eqn:W;
    cbn [negb perform done andThen app fst snd]; [congruence |].
  intros H _. injection H as <-.
  repeat split; try assumption.
  exists number, patch, tempDir. repeat split; try assumption.
  simpl. tauto.
Qed.

(** X23. Failure to obtain the diff never aborts: with the mode on, a pull
    request in the payload and a token, whenever the request is rejected,
    or answers with another status than 200, or the temporary directory or
    the file cannot be written, [fetchPatch] returns the empty path, and
    the last thing it does is to log a warning. *)
Theorem fetchPatch_degrades (h : Host) (r : ReviewHost) (number : Z) :
  getInput h "only-new-issues" = "true" ->
  eventName h = "pull_request" ->
  pull_request r = Some number ->
  nonEmpty (getInput h "github-token") = true ->
  ~ (exists patch tempDir,
       pullsGet r number = inr (200%Z, patch)
       /\ createTempDir r = inr tempDir
       /\ writeFile r (pathJoin r tempDir "pull.patch") patch = inr tt) ->
  ending (fetchPatch h r) = inr ""
  /\ exists before last,
       effects (fetchPatch h r) = (before ++ [last])%list
       /\ isWarning last = true.
Proof.
  unfold fetchPatch, getRequiredInput, ofAction, ending, effects.
  intros E EP PR Token Failed. rewrite E, EP, PR.
  cbn [nonEmpty String.eqb Ascii.eqb Bool.eqb negb andb ret fst snd map
       andThen app done].
  rewrite Token. cbn [ret fst snd map andThen app].
  destruct (pullsGet r number) as [err | [status patch]];
    cbn [negb perform done andThen app fst snd].
  { split; [reflexivity |]. exists [PullsGet number]. eexists.
    split; reflexivity. }
  destruct (Z.eqb_spec status 200) as [-> | NS];
    cbn [negb perform done andThen app fst snd].
  2: { split; [reflexivity |]. exists [PullsGet number]. eexists.
       split; reflexivity. }
  destruct (createTempDir r) as [err | tempDir];
    cbn [negb perform done andThen app fst snd].
  { split; [reflexivity |]. exists [PullsGet number; CreateTempDir]. eexists.
    split; reflexivity. }
  destruct (writeFile r (pathJoin r tempDir "pull.patch") patch) as [err | []] eqn:W;
    cbn [negb perform done andThen app fst snd].
  - split; [reflexivity |].
    eexists [_; _; _; _]. eexists. split; reflexivity.
  - exfalso. apply Failed. exists patch, tempDir. repeat split. exact W.
Qed.

Lemma fetchPatch_skips_witness :
  ending (fetchPatch (hostWith [("only-new-issues", "true")] "push" (Resolved "" ""))
                     (reviewWith 200)) = inr ""
  /\ filter isOutsideEffect
       (effects (fetchPatch
                   (hostWith [("only-new-issues", "true")] "push" (Resolved "" ""))
                   (reviewWith 200))) = [].
Proof.
  apply (fetchPatch_skips
           (hostWith [("only-new-issues", "true")] "push" (Resolved "" ""))
           (reviewWith 200)).
  right. split; [reflexivity | left; discriminate].
Defined.

Lemma fetchPatch_path_witness :
  getInput (hostWith [("only-new-issues", "true"); ("github-token", "secret")]
                     "pull_request" (Resolved "" "")) "only-new-issues" = "true"
  /\ eventName (hostWith [("only-new-issues", "true"); ("github-token", "secret")]
                         "pull_request" (Resolved "" "")) = "pull_request"
  /\ exists number patch tempDir,
       pull_request (reviewWith 200) = Some number
       /\ pullsGet (reviewWith 200) number = inr (200%Z, patch)
       /\ createTempDir (reviewWith 200) = inr tempDir
       /\ "/tmp/x/pull.patch" = pathJoin (reviewWith 200) tempDir "pull.patch"
       /\ writeFile (reviewWith 200) "/tmp/x/pull.patch" patch = inr tt
       /\ In (WriteFile "/tmp/x/pull.patch" patch)
             (effects (fetchPatch
                         (hostWith [("only-new-issues", "true");
                                    ("github-token", "secret")]
                                   "pull_request" (Resolved "" ""))
                         (reviewWith 200))).
Proof.
  apply (fetchPatch_path
           (hostWith [("only-new-issues", "true"); ("github-token", "secret")]
                     "pull_request" (Resolved "" ""))
           (reviewWith 200) "/tmp/x/pull.patch").
  - reflexivity.
  - discriminate.
Defined.

Lemma fetchPatch_degrades_witness :
  ending (fetchPatch
            (hostWith [("only-new-issues", "true"); ("github-token", "secret")]
                      "pull_request" (Resolved "" ""))
            (reviewWith 404)) = inr ""
  /\ exists before last,
       effects (fetchPatch
                  (hostWith [("only-new-issues", "true"); ("github-token", "secret")]
                            "pull_request" (Resolved "" ""))
                  (reviewWith 404)) = (before ++ [last])%list
       /\ isWarning last = true.
Proof.
  apply (fetchPatch_degrades
           (hostWith [("only-new-issues", "true"); ("github-token", "secret")]
                     "pull_request" (Resolved "" ""))
           (reviewWith 404) 7%Z); try reflexivity.
  intros [patch [tempDir [G _]]]. discriminate G.
Defined.

Lemma fetchPatch_throws_iff_witness :
  effects (fetchPatch (hostWith [("only-new-issues", "yes")] "push" (Resolved "" ""))
                      (reviewWith 200)) = [].
Proof.
  apply (proj2 (fetchPatch_throws_iff
                  (hostWith [("only-new-issues", "yes")] "push" (Resolved "" ""))
                  (reviewWith 200))
               (newError ("invalid value of " ++ dquote ++ "only-new-issues" ++ dquote
                            ++ ": " ++ dquote ++ "yes" ++ dquote
                            ++ ", expected " ++ dquote ++ "true" ++ dquote
                            ++ " or " ++ dquote ++ "false" ++ dquote))).
  reflexivity.
Defined.

(* ================================================================== *)
(** * The log and the annotations agree *)

(** X24. What [logLintIssues] prints for an issue is what
    [annotateLintIssues] publishes for it: the line can be read off the
    annotation, with [error] for the level [failure] and [warning] for the
    two others, the annotation's path and start line, its end line after a
    dash when the issue has a line range, else its column after a colon
    when it has one, then its message and, in brackets, its title. *)
Theorem issueLine_matches_annotation (issue : LintIssue) :
  let annotation := annotationOf issue in
  issueLine issue =
    "::" ++ (if LintSeverity_eqb (annotation_level annotation) failure
             then "error" else "warning")
         ++ "::" ++ path annotation ++ ":" ++ showNumber (start_line annotation)
         ++ match LineRange issue with
            | Some _ => "-" ++ showNumber (end_line annotation)
            | None =>
                match start_column annotation with
                | Some column => ":" ++ showNumber column
                | None => ""
                end
            end
         ++ " - " ++ message annotation ++ " (" ++ title annotation ++ ")".
Proof.
  unfold issueLine, annotationOf.
  destruct (LineRange issue) as [range |], (Replacement issue) as [r |],
    (nonZero (Column (Pos issue))); reflexivity.
Qed.

